(** * Komodo Image Generator: the view controller of [src/App.tsx]

    The component holds five [useState] cells (prompt, generated image,
    uploaded image, loading flag, error message) and one ref to the file
    input.  Its handlers are embedded as programs over the effects the
    source performs (state setters, object URLs, the file reader, the
    generation service, the console, the transient download anchor); the
    programs are then run against a model of the browser. *)

From Stdlib Require Import NArith Ascii String.
From stdpp Require Import base numbers list option gmap.

Set Default Proof Using "Type".
Local Open Scope N_scope.

(** ** JavaScript strings

    A JavaScript string is a sequence of UTF-16 code units. *)

Module Js.

Definition char16 := N.
Definition JsString := list char16.

(** A source literal (ASCII) as a JavaScript string. *)
Definition js (s : string) : JsString :=
  map N_of_ascii (list_ascii_of_string s).

(** Truthiness of a string: only the empty string is falsy. *)
Definition truthy (s : JsString) : bool :=
  match s with
  | [] => false
  | _ :: _ => true
  end.

(** ECMAScript WhiteSpace and LineTerminator code points, the ones
    [String.prototype.trim] strips. *)
Definition isWhiteSpace (c : char16) : bool :=
  (c =? 9) || (c =? 10) || (c =? 11) || (c =? 12) || (c =? 13) ||
  (c =? 32) || (c =? 160) || (c =? 5760) ||
  ((8192 <=? c) && (c <=? 8202)) ||
  (c =? 8232) || (c =? 8233) || (c =? 8239) || (c =? 8287) ||
  (c =? 12288) || (c =? 65279).

Fixpoint trimStart (s : JsString) : JsString :=
  match s with
  | [] => []
  | c :: s' => if isWhiteSpace c then trimStart s' else s
  end.

Definition trimEnd (s : JsString) : JsString :=
  rev (trimStart (rev s)).

(** [s.trim()] *)
Definition trim (s : JsString) : JsString :=
  trimEnd (trimStart s).

(** [s.split(sep)] for a one-unit separator: the pieces between the
    separators, in order; a string without separator is its only piece. *)
Fixpoint split (sep : char16) (s : JsString) : list JsString :=
  match s with
  | [] => [[]]
  | c :: s' =>
      if c =? sep then [] :: split sep s'
      else match split sep s' with
           | piece :: pieces => (c :: piece) :: pieces
           | [] => [[c]]
           end
  end.

Definition comma : char16 := 44.

End Js.
Export Js.

(** ** Base64 (RFC 4648), as the file reader produces it *)

Module Base64.

Definition alphabet : JsString :=
  js "ABCDEFGHIJKLMNOPQRSTUVWXYZabcdefghijklmnopqrstuvwxyz0123456789+/".

Definition pad : char16 := 61.

Definition digit (n : N) : char16 :=
  nth (N.to_nat n) alphabet pad.

Fixpoint encode (bytes : list Byte.byte) : JsString :=
  match bytes with
  | [] => []
  | [a] =>
      let a := Byte.to_N a in
      [digit (a / 4); digit ((a mod 4) * 16); pad; pad]
  | [a; b] =>
      let a := Byte.to_N a in
      let b := Byte.to_N b in
      [digit (a / 4); digit ((a mod 4) * 16 + b / 16);
       digit ((b mod 16) * 4); pad]
  | a :: b :: c :: rest =>
      let a := Byte.to_N a in
      let b := Byte.to_N b in
      let c := Byte.to_N c in
      digit (a / 4) :: digit ((a mod 4) * 16 + b / 16) ::
      digit ((b mod 16) * 4 + c / 64) :: digit (c mod 64) :: encode rest
  end.

Definition bytes_of (s : string) : list Byte.byte :=
  map byte_of_ascii (list_ascii_of_string s).

End Base64.

(** ** Data model of the component *)

Module App.

(** An object URL ([blob:] URL), identified by its serial number in the
    browser's URL store. *)
Definition ObjectURL := N.

(** The value a promise is rejected with (rendered as text). *)
Definition Cause := JsString.

(** A [File]: name, declared media type and content. *)
Record File := {
  name : JsString;
  type : JsString;
  bytes : list Byte.byte;
}.

(** [{ file: File, preview: string }] *)
Record UploadedImage := {
  file : File;
  preview : ObjectURL;
}.

(** The optional second argument of [generateImage].  [data] is what
    [split(',')[1]] evaluates to, which is [undefined] ([None]) when the
    reader's result has no comma. *)
Record ImageInput := {
  data : option JsString;
  mimeType : JsString;
}.

(** The transient [<a>] element of the download handler. *)
Record Anchor := {
  href : JsString;
  download : JsString;
}.

(** A settled promise. *)
Inductive Outcome (A : Type) : Type :=
| Resolved (a : A)
| Rejected (err : Cause).
Arguments Resolved {A} a.
Arguments Rejected {A} err.

(** The five [useState] cells. *)
Record AppState := {
  prompt : JsString;
  generatedImage : option JsString;
  uploadedImage : option UploadedImage;
  isLoading : bool;
  error : option JsString;
}.

(** ** Effects *)

(** Synchronous effects, indexed by the type of their result. *)
Inductive Eff : Type -> Type :=
| SetPrompt (v : JsString) : Eff unit
| SetGeneratedImage (v : option JsString) : Eff unit
| SetUploadedImage (v : option UploadedImage) : Eff unit
| SetIsLoading (v : bool) : Eff unit
| SetError (v : option JsString) : Eff unit
| PreventDefault : Eff unit
| RevokeObjectURL (u : ObjectURL) : Eff unit
| CreateObjectURL (f : File) : Eff ObjectURL
| FileInputRefCurrent : Eff bool
| SetFileInputValue (v : JsString) : Eff unit
| ConsoleError (err : Cause) : Eff unit
| AppendChild (a : Anchor) : Eff unit
| Click (a : Anchor) : Eff unit
| RemoveChild (a : Anchor) : Eff unit.

(** Asynchronous requests: the handler is suspended until the promise
    settles.  Both settle with a string or are rejected. *)
Inductive Request : Type :=
| ReadAsDataURL (f : File)
| GenerateImage (p : JsString) (image : option ImageInput).

(** A handler body: returns, throws, performs an effect or awaits. *)
Inductive Prog (A : Type) : Type :=
| Ret (a : A)
| Throw (err : Cause)
| Vis {X : Type} (e : Eff X) (k : X -> Prog A)
| Await (r : Request) (k : Outcome JsString -> Prog A).
Arguments Ret {A} a.
Arguments Throw {A} err.
Arguments Vis {A X} e k.
Arguments Await {A} r k.

Fixpoint bind {A B : Type} (f : A -> Prog B) (p : Prog A) : Prog B :=
  match p with
  | Ret a => f a
  | Throw err => Throw err
  | Vis e k => Vis e (fun x => bind f (k x))
  | Await r k => Await r (fun o => bind f (k o))
  end.

#[global] Instance prog_ret : MRet Prog := @Ret.
#[global] Instance prog_bind : MBind Prog := @bind.

Definition perform {X : Type} (e : Eff X) : Prog X := Vis e Ret.

(** The two callbacks of a pending request. *)
Definition settled (r : Request) : Prog (Outcome JsString) := Await r Ret.

(** [await]: the value of a fulfilled promise; a rejection is thrown. *)
Definition await (r : Request) : Prog JsString :=
  Await r (fun o => match o with
                    | Resolved v => Ret v
                    | Rejected err => Throw err
                    end).

(** [try { body } catch (err) { handler err }] *)
Fixpoint try_catch {A : Type} (body : Prog A) (handler : Cause -> Prog A)
  : Prog A :=
  match body with
  | Ret a => Ret a
  | Throw err => handler err
  | Vis e k => Vis e (fun x => try_catch (k x) handler)
  | Await r k => Await r (fun o => try_catch (k o) handler)
  end.

(** [try { body } finally { cleanup }]: the cleanup runs on both exits and
    the original completion is kept. *)
Fixpoint try_finally {A : Type} (body : Prog A) (cleanup : Prog unit)
  : Prog A :=
  match body with
  | Ret a => cleanup ;; Ret a
  | Throw err => cleanup ;; Throw err
  | Vis e k => Vis e (fun x => try_finally (k x) cleanup)
  | Await r k => Await r (fun o => try_finally (k o) cleanup)
  end.

Definition try_catch_finally {A : Type} (body : Prog A)
    (handler : Cause -> Prog A) (cleanup : Prog unit) : Prog A :=
  try_finally (try_catch body handler) cleanup.

(** ** The handlers of [App.tsx]

    A handler is a closure over the state of the render that created it:
    [cl] holds the values of [prompt], [generatedImage], [uploadedImage],
    [isLoading] and [error] it sees. *)

(** Lines 14-23. [reader.onload] resolves with the second piece of the
    data URL split at commas, [reader.onerror] rejects. *)
Definition fileToBase64 (f : File) : Prog (option JsString) :=
  r ← settled (ReadAsDataURL f);
  match r with
  | Resolved result => Ret (split comma result !! 1%nat)
  | Rejected err => Throw err
  end.

(** Lines 25-38. [files] is [e.target.files] ([None] for [null]). *)
Definition handleImageUpload (cl : AppState) (files : option (list File))
  : Prog unit :=
  match files ≫= head with
  | Some f =>
      match uploadedImage cl with
      | Some up => perform (RevokeObjectURL (preview up))
      | None => Ret tt
      end;;
      url ← perform (CreateObjectURL f);
      perform (SetUploadedImage (Some {| file := f; preview := url |}));;
      perform (SetGeneratedImage None);;
      perform (SetError None)
  | None => Ret tt
  end.

(** Lines 40-48. *)
Definition removeUploadedImage (cl : AppState) : Prog unit :=
  match uploadedImage cl with
  | Some up => perform (RevokeObjectURL (preview up))
  | None => Ret tt
  end;;
  perform (SetUploadedImage None);;
  current ← perform FileInputRefCurrent;
  if current : bool then perform (SetFileInputValue []) else Ret tt.

Definition failureMessage : JsString :=
  js "Failed to generate image. Please try again later.".

Definition dataUrlPrefix : JsString := js "data:image/png;base64,".

Arguments failureMessage : simpl never.
Arguments dataUrlPrefix : simpl never.

(** Lines 50-77. *)
Definition handleSubmit (cl : AppState) : Prog unit :=
  perform PreventDefault;;
  if negb (truthy (trim (prompt cl))) || isLoading cl then Ret tt
  else
    perform (SetIsLoading true);;
    perform (SetError None);;
    perform (SetGeneratedImage None);;
    try_catch_finally
      (imageInput ← match uploadedImage cl with
                    | Some up =>
                        base64Data ← fileToBase64 (file up);
                        Ret (Some {| data := base64Data;
                                     mimeType := type (file up) |})
                    | None => Ret None
                    end;
       base64Image ← await (GenerateImage (prompt cl) imageInput);
       let imageUrl := dataUrlPrefix ++ base64Image in
       perform (SetGeneratedImage (Some imageUrl)))
      (fun err =>
         perform (SetError (Some failureMessage));;
         perform (ConsoleError err))
      (perform (SetIsLoading false)).

Definition downloadName : JsString := js "generated-image.png".

Arguments downloadName : simpl never.

(** Lines 79-87. [!generatedImage] holds of [null] and of the empty
    string. *)
Definition handleDownload (cl : AppState) : Prog unit :=
  match generatedImage cl with
  | None => Ret tt
  | Some url =>
      if negb (truthy url) then Ret tt
      else
        let link := {| href := url; download := downloadName |} in
        perform (AppendChild link);;
        perform (Click link);;
        perform (RemoveChild link)
  end.

(** Line 170, [onChange] of the textarea. *)
Definition handlePromptChange (value : JsString) : Prog unit :=
  perform (SetPrompt value).

End App.
Export App.

(** ** The browser *)

Module Browser.

(** What a handler does to the outside, in order. *)
Inductive Event : Type :=
| EvPreventDefault
| EvRevokeObjectURL (u : ObjectURL)
| EvCreateObjectURL (f : File) (u : ObjectURL)
| EvConsoleError (err : Cause)
| EvAppendChild (a : Anchor)
| EvClick (a : Anchor)
| EvRemoveChild (a : Anchor)
| EvCall (r : Request)
| EvSettle (r : Request) (o : Outcome JsString).

(** The component's state together with the parts of the page it touches:
    [fileInput] is the value of the element [fileInputRef.current] points
    to ([None] while the ref is [null]); [issued] counts the object URLs
    created so far and [live] is the URL store. *)
Record World := {
  app : AppState;
  fileInput : option JsString;
  issued : N;
  live : gset ObjectURL;
}.

Definition with_app (f : AppState -> AppState) (w : World) : World :=
  {| app := f (app w); fileInput := fileInput w;
     issued := issued w; live := live w |}.

Definition set_prompt (v : JsString) (st : AppState) : AppState :=
  {| prompt := v; generatedImage := generatedImage st;
     uploadedImage := uploadedImage st; isLoading := isLoading st;
     error := error st |}.

Definition set_generatedImage (v : option JsString) (st : AppState)
  : AppState :=
  {| prompt := prompt st; generatedImage := v;
     uploadedImage := uploadedImage st; isLoading := isLoading st;
     error := error st |}.

Definition set_uploadedImage (v : option UploadedImage) (st : AppState)
  : AppState :=
  {| prompt := prompt st; generatedImage := generatedImage st;
     uploadedImage := v; isLoading := isLoading st; error := error st |}.

Definition set_isLoading (v : bool) (st : AppState) : AppState :=
  {| prompt := prompt st; generatedImage := generatedImage st;
     uploadedImage := uploadedImage st; isLoading := v; error := error st |}.

Definition set_error (v : option JsString) (st : AppState) : AppState :=
  {| prompt := prompt st; generatedImage := generatedImage st;
     uploadedImage := uploadedImage st; isLoading := isLoading st;
     error := v |}.

(** One synchronous effect: its result, the world after it and what it
    shows to the outside.  [URL.createObjectURL] hands out the next serial
    number; [URL.revokeObjectURL] drops the entry (if any) from the store.
    The assignment to [fileInputRef.current.value] is only reached behind
    the handler's null check. *)
Definition exec {X : Type} (e : Eff X) (w : World)
  : X * World * list Event :=
  match e in Eff X return X * World * list Event with
  | SetPrompt v => (tt, with_app (set_prompt v) w, [])
  | SetGeneratedImage v => (tt, with_app (set_generatedImage v) w, [])
  | SetUploadedImage v => (tt, with_app (set_uploadedImage v) w, [])
  | SetIsLoading v => (tt, with_app (set_isLoading v) w, [])
  | SetError v => (tt, with_app (set_error v) w, [])
  | PreventDefault => (tt, w, [EvPreventDefault])
  | RevokeObjectURL u =>
      (tt,
       {| app := app w; fileInput := fileInput w; issued := issued w;
          live := live w ∖ {[u]} |},
       [EvRevokeObjectURL u])
  | CreateObjectURL f =>
      let u := issued w in
      (u,
       {| app := app w; fileInput := fileInput w; issued := N.succ u;
          live := live w ∪ {[u]} |},
       [EvCreateObjectURL f u])
  | FileInputRefCurrent => (bool_decide (is_Some (fileInput w)), w, [])
  | SetFileInputValue v =>
      (tt,
       {| app := app w; fileInput := const v <$> fileInput w;
          issued := issued w;
          live := live w |},
       [])
  | ConsoleError err => (tt, w, [EvConsoleError err])
  | AppendChild a => (tt, w, [EvAppendChild a])
  | Click a => (tt, w, [EvClick a])
  | RemoveChild a => (tt, w, [EvRemoveChild a])
  end.

(** How the outside answers the two requests of one handler run. *)
Record Env := {
  readAsDataURL : File -> Outcome JsString;
  generateImage : JsString -> option ImageInput -> Outcome JsString;
}.

Definition answer (env : Env) (r : Request) : Outcome JsString :=
  match r with
  | ReadAsDataURL f => readAsDataURL env f
  | GenerateImage p image => generateImage env p image
  end.

(** A handler run to completion: how it completes, the world it leaves
    and its trace. *)
Fixpoint run {A : Type} (env : Env) (p : Prog A) (w : World)
  : Outcome A * World * list Event :=
  match p with
  | Ret a => (Resolved a, w, [])
  | Throw err => (Rejected err, w, [])
  | Vis e k =>
      let '(x, w1, t1) := exec e w in
      let '(res, w2, t2) := run env (k x) w1 in
      (res, w2, t1 ++ t2)
  | Await r k =>
      let o := answer env r in
      let '(res, w2, t2) := run env (k o) w in
      (res, w2, EvCall r :: EvSettle r o :: t2)
  end.

(** The calls of the generation service in a trace, with their
    arguments. *)
Definition generation_call (e : Event)
  : option (JsString * option ImageInput) :=
  match e with
  | EvCall (GenerateImage p image) => Some (p, image)
  | _ => None
  end.

Definition generation_calls (t : list Event)
  : list (JsString * option ImageInput) :=
  omap generation_call t.

(** The object URLs a trace revokes and creates, in order. *)
Definition revoked (t : list Event) : list ObjectURL :=
  omap (fun e => match e with
                 | EvRevokeObjectURL u => Some u
                 | _ => None
                 end) t.

Definition created (t : list Event) : list ObjectURL :=
  omap (fun e => match e with
                 | EvCreateObjectURL _ u => Some u
                 | _ => None
                 end) t.

(** How many times [t] releases [u]. *)
Definition releases (u : ObjectURL) (t : list Event) : nat :=
  length (filter (fun v => v = u) (revoked t)).

(** What [FileReader.readAsDataURL] loads (File API, RFC 2397): the
    content in base64 behind a media type. *)
Definition dataURL (mediatype : JsString) (content : list Byte.byte)
  : JsString :=
  js "data:" ++ mediatype ++ js ";base64" ++ (comma :: Base64.encode content).

(** A reader that loads every file; a file without declared type is read
    as [application/octet-stream]. *)
Definition fileReader (f : File) : Outcome JsString :=
  Resolved (dataURL (if truthy (type f) then type f
                     else js "application/octet-stream") (bytes f)).

(** [env] reads [f] as the File API prescribes.  The media type of a data
    URL holds no comma: the first comma starts the data. *)
Definition reads_as_data_url (env : Env) (f : File) : Prop :=
  ∃ mediatype,
    (comma ∉ mediatype) ∧
    readAsDataURL env f = Resolved (dataURL mediatype (bytes f)).

End Browser.
Export Browser.

(** ** Sessions

    The page after mounting, and what the user and the outside can do to
    it.  Every handler invoked is the one of the latest render, so it
    closes over the current state. *)

Module Session.

Definition initialState : AppState :=
  {| prompt := []; generatedImage := None; uploadedImage := None;
     isLoading := false; error := None |}.

Definition initialWorld : World :=
  {| app := initialState; fileInput := Some []; issued := 0; live := ∅ |}.

(** The handler of the current render, run to completion. *)
Definition invoke (env : Env) (handler : AppState -> Prog unit) (w : World)
  : Outcome unit * World * list Event :=
  run env (handler (app w)) w.

Definition world_after (env : Env) (handler : AppState -> Prog unit)
    (w : World) : World :=
  (invoke env handler w).1.2.

Definition trace_of (env : Env) (handler : AppState -> Prog unit)
    (w : World) : list Event :=
  (invoke env handler w).2.

(** The submit handler's guard lets the submission through. *)
Definition proceeds (st : AppState) : bool :=
  negb (negb (truthy (trim (prompt st))) || isLoading st).

(** What the file picker shows in the input's [value] once the user has
    chosen [files]. *)
Definition pickerValue (files : option (list File)) : JsString :=
  match files ≫= head with
  | Some f => js "C:\fakepath\" ++ name f
  | None => []
  end.

Definition choose_files (files : option (list File)) (w : World) : World :=
  {| app := app w; fileInput := const (pickerValue files) <$> fileInput w;
     issued := issued w; live := live w |}.

(** *** Completed operations *)

Inductive Op : Type :=
| OpChangePrompt (value : JsString)
| OpChangeFiles (files : option (list File))
| OpRemove
| OpSubmit (env : Env)
| OpDownload.

(** Handlers other than the submit handler await nothing, so the answers
    of the outside are immaterial to them. *)
Definition silent : Env :=
  {| readAsDataURL := fun _ => Rejected [];
     generateImage := fun _ _ => Rejected [] |}.

Definition perform_op (w : World) (op : Op) : World * list Event :=
  let '(_, w', t) :=
    match op with
    | OpChangePrompt value =>
        invoke silent (fun _ => handlePromptChange value) w
    | OpChangeFiles files =>
        invoke silent (fun cl => handleImageUpload cl files)
          (choose_files files w)
    | OpRemove => invoke silent removeUploadedImage w
    | OpSubmit env => invoke env handleSubmit w
    | OpDownload => invoke silent handleDownload w
    end in
  (w', t).

(** A sequence of completed operations: the final world and the whole
    trace. *)
Fixpoint perform_ops (w : World) (ops : list Op) : World * list Event :=
  match ops with
  | [] => (w, [])
  | op :: ops' =>
      let '(w1, t1) := perform_op w op in
      let '(w2, t2) := perform_ops w1 ops' in
      (w2, t1 ++ t2)
  end.

(** *** Interleaved sessions

    The submit handler is asynchronous: between its start and the settling
    of what it awaits, other events are handled. *)

(** A handler run up to its first [await]. *)
Inductive Paused (A : Type) : Type :=
| Finished (res : Outcome A)
| Suspended (r : Request) (k : Outcome JsString -> Prog A).
Arguments Finished {A} res.
Arguments Suspended {A} r k.

Fixpoint start {A : Type} (p : Prog A) (w : World)
  : Paused A * World * list Event :=
  match p with
  | Ret a => (Finished (Resolved a), w, [])
  | Throw err => (Finished (Rejected err), w, [])
  | Vis e k =>
      let '(x, w1, t1) := exec e w in
      let '(res, w2, t2) := start (k x) w1 in
      (res, w2, t1 ++ t2)
  | Await r k => (Suspended r k, w, [EvCall r])
  end.

(** A suspended handler. *)
Record Task := {
  awaiting : Request;
  resume : Outcome JsString -> Prog unit;
}.

Record Session := {
  world : World;
  pending : list Task;
  history : list Event;
}.

Definition initialSession : Session :=
  {| world := initialWorld; pending := []; history := [] |}.

Inductive Input : Type :=
| ChangePrompt (value : JsString)
| ChangeFiles (files : option (list File))
| ClickRemove
| Submit
| ClickDownload
| Settle (i : nat) (o : Outcome JsString).

(** Run [p] up to its first [await] on top of [w], keeping the tasks
    [tasks] that are still suspended. *)
Definition dispatch (p : Prog unit) (w : World) (tasks : list Task)
    (past : list Event) : Session :=
  let '(res, w', t) := start p w in
  {| world := w';
     pending := match res with
                | Finished _ => tasks
                | Suspended r k => tasks ++ [{| awaiting := r; resume := k |}]
                end;
     history := past ++ t |}.

Definition step (s : Session) (i : Input) : Session :=
  let w := world s in
  match i with
  | ChangePrompt value =>
      dispatch (handlePromptChange value) w (pending s) (history s)
  | ChangeFiles files =>
      dispatch (handleImageUpload (app w) files) (choose_files files w)
        (pending s) (history s)
  | ClickRemove =>
      dispatch (removeUploadedImage (app w)) w (pending s) (history s)
  | Submit => dispatch (handleSubmit (app w)) w (pending s) (history s)
  | ClickDownload =>
      dispatch (handleDownload (app w)) w (pending s) (history s)
  | Settle i o =>
      match pending s !! i with
      | Some task =>
          dispatch (resume task o) w (delete i (pending s))
            (history s ++ [EvSettle (awaiting task) o])
      | None => s
      end
  end.

Definition steps (s : Session) (inputs : list Input) : Session :=
  foldl step s inputs.

(** *** Completed operations as sessions

    A completed submission is a submission whose requests are settled, one
    after the other, before anything else happens. *)

Definition settle_next (env : Env) (s : Session) : Session :=
  match pending s with
  | task :: _ => step s (Settle 0 (answer env (awaiting task)))
  | [] => s
  end.

Definition op_step (s : Session) (op : Op) : Session :=
  match op with
  | OpChangePrompt value => step s (ChangePrompt value)
  | OpChangeFiles files => step s (ChangeFiles files)
  | OpRemove => step s ClickRemove
  | OpSubmit env => settle_next env (settle_next env (step s Submit))
  | OpDownload => step s ClickDownload
  end.

End Session.
Export Session.

(** ** Specification vocabulary *)

Module Spec.

(** How many of the three conditions that drive the output pane hold. *)
Definition shown (st : AppState) : nat :=
  (if isLoading st then 1 else 0) +
  (if error st is Some _ then 1 else 0) +
  (if generatedImage st is Some _ then 1 else 0).

(** No call in flight, and not both an error and a result. *)
Definition settled_state (st : AppState) : Prop :=
  isLoading st = false /\ (error st = None \/ generatedImage st = None).

(** A call in flight: neither an error nor a result. *)
Definition loading_state (st : AppState) : Prop :=
  isLoading st = true /\ error st = None /\ generatedImage st = None.

(** The anchor the download handler clicks for [url]. *)
Definition saveLink (url : JsString) : Anchor :=
  {| href := url; download := js "generated-image.png" |}.

(** The world once the submit handler has passed its guard. *)
Definition loading_world (w : World) : World :=
  with_app (set_generatedImage None)
    (with_app (set_error None) (with_app (set_isLoading true) w)).

(** How a submission ends once what it awaits has settled: the result is
    stored, or the failure message is stored and the cause logged; the
    loading flag is cleared on both paths. *)
Definition finish (o : Outcome JsString) (w : World) : World * list Event :=
  match o with
  | Resolved base64Image =>
      (with_app (set_isLoading false)
         (with_app (set_generatedImage (Some (dataUrlPrefix ++ base64Image)))
            w),
       [])
  | Rejected err =>
      (with_app (set_isLoading false)
         (with_app (set_error (Some failureMessage)) w),
       [EvConsoleError err])
  end.

(** [k] is the rest of a submission that awaits the generation service. *)
Definition awaits_generation (k : Outcome JsString -> Prog unit) : Prop :=
  forall o w,
    start (k o) w = (Finished (Resolved tt), (finish o w).1, (finish o w).2).

(** [k] is the rest of a submission of prompt [p] that awaits the reading
    of a file of declared type [mime]. *)
Definition awaits_reading (p mime : JsString)
    (k : Outcome JsString -> Prog unit) : Prop :=
  (forall err w,
      start (k (Rejected err)) w =
      (Finished (Resolved tt), (finish (Rejected err) w).1,
       (finish (Rejected err) w).2)) /\
  (forall result w,
      let r := GenerateImage p
                 (Some {| data := split comma result !! 1%nat;
                          mimeType := mime |}) in
      exists k',
        start (k (Resolved result)) w = (Suspended r k', w, [EvCall r]) /\
        awaits_generation k').

Inductive SubmitTask : Task -> Prop :=
| submit_generating p image k :
    awaits_generation k ->
    SubmitTask {| awaiting := GenerateImage p image; resume := k |}
| submit_reading f p mime k :
    awaits_reading p mime k ->
    SubmitTask {| awaiting := ReadAsDataURL f; resume := k |}.

(** The loading discipline of a session: the file input stays mounted; at
    most one submission is in flight, and the loading flag is set exactly
    while one is; a stored result is a PNG data URL. *)
Record Disciplined (s : Session) : Prop := {
  inv_mounted : is_Some (fileInput (world s));
  inv_loading :
    match pending s with
    | [] => settled_state (app (world s))
    | [task] => SubmitTask task /\ loading_state (app (world s))
    | _ => False
    end;
  inv_result :
    forall url, generatedImage (app (world s)) = Some url ->
                exists b, url = dataUrlPrefix ++ b;
}.

(** Accounting of object URLs over a session: every URL in the history
    was handed out by the store; revoked URLs were created, and none is
    revoked twice; the preview of the current upload is the only live URL
    and every other created URL has been revoked. *)
Record Accounted (s : Session) : Prop := {
  acc_created : forall u, u ∈ created (history s) -> u < issued (world s);
  acc_revoked : forall u, u ∈ revoked (history s) -> u ∈ created (history s);
  acc_once : NoDup (revoked (history s));
  acc_current :
    match uploadedImage (app (world s)) with
    | Some up =>
        (preview up ∈ created (history s)) /\
        (preview up ∉ revoked (history s)) /\
        live (world s) = {[preview up]}
    | None => live (world s) = ∅
    end;
  acc_no_leak :
    forall u, u ∈ created (history s) ->
      (u ∈ revoked (history s)) \/
      exists up, uploadedImage (app (world s)) = Some up /\ preview up = u;
}.

(** What the synchronous handlers do, in closed form. *)
Definition release_previous (st : AppState) (w : World)
  : World * list Event :=
  match uploadedImage st with
  | Some up =>
      ({| app := app w; fileInput := fileInput w; issued := issued w;
          live := live w ∖ {[preview up]} |},
       [EvRevokeObjectURL (preview up)])
  | None => (w, [])
  end.

Definition uploaded_world (f : File) (w : World) : World :=
  {| app := {| prompt := prompt (app w); generatedImage := None;
               uploadedImage := Some {| file := f; preview := issued w |};
               isLoading := isLoading (app w); error := None |};
     fileInput := fileInput w; issued := N.succ (issued w);
     live := live w ∪ {[issued w]} |}.

Definition removed_world (w : World) : World :=
  {| app := set_uploadedImage None (app w);
     fileInput := const [] <$> fileInput w;
     issued := issued w; live := live w |}.

End Spec.
Export Spec.

(** ** Sample inputs *)

Module Samples.

Definition balloon : AppState :=
  {| prompt := js "A red balloon"; generatedImage := None;
     uploadedImage := None; isLoading := false; error := None |}.

Definition page (st : AppState) : World :=
  {| app := st; fileInput := Some []; issued := 0; live := ∅ |}.

(** A service that answers every call with the base64 text [Zm9v]. *)
Definition answering : Env :=
  {| readAsDataURL := fileReader;
     generateImage := fun _ _ => Resolved (js "Zm9v") |}.

(** A service that is down. *)
Definition failing : Env :=
  {| readAsDataURL := fileReader;
     generateImage := fun _ _ => Rejected (js "503") |}.

(** A file that can no longer be read. *)
Definition unreadable : Env :=
  {| readAsDataURL := fun _ => Rejected (js "NotReadableError");
     generateImage := fun _ _ => Resolved (js "Zm9v") |}.

Definition photo : File :=
  {| name := js "photo.jpg"; type := js "image/jpeg";
     bytes := Base64.bytes_of "foo" |}.

Definition sketch : File :=
  {| name := js "sketch.png"; type := js "image/png";
     bytes := Base64.bytes_of "fo" |}.

Definition editing : AppState :=
  {| prompt := js "edit this"; generatedImage := None;
     uploadedImage := Some {| file := photo; preview := 0 |};
     isLoading := false; error := None |}.

Definition editing_page : World :=
  {| app := editing; fileInput := Some (js "C:\fakepath\photo.jpg");
     issued := 1; live := {[0]} |}.

(** The same page while a submission is in flight. *)
Definition busy_page : World := with_app (set_isLoading true) editing_page.

Definition padded : AppState :=
  {| prompt := js "  a cat  "; generatedImage := None;
     uploadedImage := None; isLoading := false; error := None |}.

Definition blank : AppState :=
  {| prompt := js "   "; generatedImage := None;
     uploadedImage := None; isLoading := false; error := None |}.

Definition done_state : AppState :=
  {| prompt := js "A red balloon";
     generatedImage := Some (js "data:image/png;base64,Zm9v");
     uploadedImage := None; isLoading := false; error := None |}.

End Samples.
Export Samples.

(** ** What is rendered

    The parts of the returned tree that depend on the state (lines 113-134,
    139-163 and 176-182 of [App.tsx]); class names and icons are constant. *)

Module View.

(** Truthiness of a [string | null] value. *)
Definition truthy_opt (v : option JsString) : bool :=
  match v with
  | Some s => truthy s
  | None => false
  end.

(** The children of the output pane. *)
Inductive OutputItem : Type :=
| Spinner
| ErrorText (message : JsString)
| ResultImage (src alt : JsString)
| Placeholder.

(** Lines 139-163: four conditional children, in order.  [ResultImage]
    stands for the image together with its Download button, whose
    [onClick] is [handleDownload]. *)
Definition outputPane (st : AppState) : list OutputItem :=
  (if isLoading st then [Spinner] else []) ++
  match error st with
  | Some message => if truthy message then [ErrorText message] else []
  | None => []
  end ++
  match generatedImage st with
  | Some src =>
      if negb (isLoading st) && negb (truthy_opt (error st)) && truthy src
      then [ResultImage src (prompt st)] else []
  | None => []
  end ++
  (if negb (isLoading st) && negb (truthy_opt (error st)) &&
      negb (truthy_opt (generatedImage st))
   then [Placeholder] else []).

(** The child of the input pane next to the hidden file input. *)
Inductive InputItem : Type :=
| Preview (src : ObjectURL)
| UploadLabel.

(** Lines 113-134.  [Preview] stands for the preview image together with
    the button whose [onClick] is [removeUploadedImage]. *)
Definition inputPane (st : AppState) : InputItem :=
  match uploadedImage st with
  | Some up => Preview (preview up)
  | None => UploadLabel
  end.

Record Button := {
  disabled : bool;
  label : JsString;
}.

(** Lines 176-182. *)
Definition submitButton (st : AppState) : Button :=
  {| disabled := isLoading st || negb (truthy (trim (prompt st)));
     label := if isLoading st then js "Generating..."
              else js "Generate Image" |}.

End View.

(** ** Submissions in flight *)

Module Flight.

(** What a suspended submission will do: one that awaits the generation
    service ends with the answer; one that awaits the reading of its
    upload has kept a non-blank prompt [p] and a media type [mime] for the
    call to come. *)
Definition task_ok (task : Task) : Prop :=
  match awaiting task with
  | GenerateImage _ _ => awaits_generation (resume task)
  | ReadAsDataURL _ =>
      exists p mime, trim p <> [] /\ awaits_reading p mime (resume task)
  end.

(** Every call of the generation service so far carried a non-blank
    prompt, and so will the calls of the suspended submissions. *)
Definition NonBlank (s : Session) : Prop :=
  (forall p image,
      (p, image) ∈ generation_calls (history s) -> trim p <> []) /\
  Forall task_ok (pending s).

(** The submissions in a list of inputs. *)
Definition is_submit (i : Input) : bool :=
  match i with
  | Submit => true
  | _ => false
  end.

Definition is_settle (i : Input) : bool :=
  match i with
  | Settle _ _ => true
  | _ => false
  end.

(** The suspended submissions that have not called the service yet. *)
Definition is_reading (task : Task) : bool :=
  match awaiting task with
  | ReadAsDataURL _ => true
  | GenerateImage _ _ => false
  end.

End Flight.
Export Flight.

(** * Properties *)

(** ** Strings *)

Section Strings.

Implicit Types (s pre post : JsString) (c sep : char16).

Lemma trimStart_nil s : trimStart s = [] <-> forallb isWhiteSpace s = true.
Proof.
  induction s as [|c s IH]; cbn; [done|].
  destruct (isWhiteSpace c); cbn; [done|]. split; discriminate.
Qed.

Lemma trimStart_head s c s' : trimStart s = c :: s' -> isWhiteSpace c = false.
Proof.
  induction s as [|d s IH]; cbn; [done|].
  destruct (isWhiteSpace d) eqn:Hd; [done|]. by intros [= <- _].
Qed.

(** A prompt is blank after trimming exactly when it consists of white
    space only. *)
Lemma trim_nil s : trim s = [] <-> forallb isWhiteSpace s = true.
Proof.
  unfold trim, trimEnd. rewrite <- trimStart_nil. split.
  - intros H. apply (f_equal (@rev _)) in H.
    rewrite rev_involutive in H. cbn in H.
    apply trimStart_nil in H. rewrite forallb_forall in H.
    destruct (trimStart s) as [|c s'] eqn:E; [done|].
    apply trimStart_head in E.
    rewrite (H c) in E; [done|]. rewrite <- in_rev. by left.
  - by intros ->.
Qed.

Lemma split_no_sep sep s : sep ∉ s -> split sep s = [s].
Proof.
  induction s as [|c s IH]; cbn; [done|].
  intros [H1 H2]%not_elem_of_cons.
  destruct (N.eqb_spec c sep); [congruence|]. by rewrite IH.
Qed.

Lemma split_at_sep sep pre post :
  sep ∉ pre -> split sep (pre ++ sep :: post) = pre :: split sep post.
Proof.
  induction pre as [|c pre IH]; cbn.
  - intros _. by rewrite N.eqb_refl.
  - intros [H1 H2]%not_elem_of_cons.
    destruct (N.eqb_spec c sep); [congruence|]. by rewrite IH.
Qed.

End Strings.

(** ** Base64 *)

Lemma list_ind3 {A} (P : list A -> Prop) :
  P [] -> (forall a, P [a]) -> (forall a b, P [a; b]) ->
  (forall a b c l, P l -> P (a :: b :: c :: l)) -> forall l, P l.
Proof.
  intros H0 H1 H2 H3. fix IH 1.
  intros [|a [|b [|c l]]];
    [exact H0|exact (H1 a)|exact (H2 a b)|exact (H3 a b c l (IH l))].
Qed.

Lemma digit_not_comma n : Base64.digit n <> comma.
Proof.
  unfold Base64.digit.
  destruct (nth_in_or_default (N.to_nat n) Base64.alphabet Base64.pad)
    as [H | ->]; [|done].
  revert H. generalize (nth (N.to_nat n) Base64.alphabet Base64.pad).
  intros c H.
  assert (F : forallb (fun c => negb (c =? comma)) Base64.alphabet = true)
    by reflexivity.
  rewrite forallb_forall in F. specialize (F c H).
  by destruct (N.eqb_spec c comma).
Qed.

Lemma pad_not_comma : Base64.pad <> comma.
Proof. discriminate. Qed.

Ltac no_comma :=
  repeat (apply not_elem_of_cons; split;
          [first [ apply not_eq_sym, digit_not_comma
                 | apply not_eq_sym, pad_not_comma ] |]).

(** Base64 text holds no comma. *)
Lemma encode_no_comma content : comma ∉ Base64.encode content.
Proof.
  induction content as [|a|a b|a b c l IH] using list_ind3;
    cbn [Base64.encode]; no_comma; first [apply not_elem_of_nil | exact IH].
Qed.

Lemma prefix_no_comma mediatype :
  comma ∉ mediatype -> comma ∉ js "data:" ++ mediatype ++ js ";base64".
Proof.
  intros H. rewrite !not_elem_of_app. split_and!; [|done|].
  - apply (bool_decide_unpack _). by vm_compute.
  - apply (bool_decide_unpack _). by vm_compute.
Qed.

(** [split(',')[1]] of a data URL is its base64 text. *)
Lemma dataURL_second_piece mediatype content :
  comma ∉ mediatype ->
  split comma (dataURL mediatype content) !! 1%nat =
  Some (Base64.encode content).
Proof.
  intros H. unfold dataURL. rewrite (assoc_L (++) (js "data:")).
  rewrite (assoc_L (++) _ (js ";base64")).
  rewrite <- (assoc_L (++) (js "data:")).
  rewrite split_at_sep by by apply prefix_no_comma.
  by rewrite split_no_sep by apply encode_no_comma.
Qed.

Example trim_both_ends : trim (js "  a b  ") = js "a b".
Proof. reflexivity. Qed.

Example trim_blank : trim (js "   ") = [].
Proof. reflexivity. Qed.

Example trim_no_break_space : trim [160; 8195; 10] = [].
Proof. reflexivity. Qed.

Example split_data_url :
  split comma (js "data:image/png;base64,Zm9v") =
  [js "data:image/png;base64"; js "Zm9v"].
Proof. reflexivity. Qed.

Example split_without_comma : split comma (js "data:") !! 1%nat = None.
Proof. reflexivity. Qed.

Example encode_foo : Base64.encode (Base64.bytes_of "foo") = js "Zm9v".
Proof. reflexivity. Qed.

Example encode_padding :
  Base64.encode (Base64.bytes_of "fo") = js "Zm8=" /\
  Base64.encode (Base64.bytes_of "f") = js "Zg==".
Proof. split; reflexivity. Qed.

Example fileReader_photo :
  fileReader photo = Resolved (js "data:image/jpeg;base64,Zm9v").
Proof. reflexivity. Qed.

(** ** Single runs of the handlers *)

Lemma guard_of_proceeds st :
  negb (truthy (trim (prompt st))) || isLoading st = negb (proceeds st).
Proof. unfold proceeds. by rewrite negb_involutive. Qed.

Lemma proceeds_true st :
  proceeds st = true <-> trim (prompt st) <> [] /\ isLoading st = false.
Proof.
  unfold proceeds.
  destruct (trim (prompt st)), (isLoading st); cbn;
    split; (intros [? ?] || intros ?); done.
Qed.

Lemma proceeds_false st :
  proceeds st = false <-> trim (prompt st) = [] \/ isLoading st = true.
Proof.
  unfold proceeds.
  destruct (trim (prompt st)), (isLoading st); cbn;
    split; (intros [? | ?] || intros ?); auto; done.
Qed.

(** Membership in an explicit trace, by cases. *)
Ltac in_trace :=
  repeat match goal with
         | H : _ ∈ _ :: _ |- _ => apply elem_of_cons in H as [H | H]
         | H : _ ∈ [] |- _ => by apply elem_of_nil in H
         end.

Ltac in_list :=
  repeat first [apply list_elem_of_here | apply list_elem_of_further].

(** Runs the submit handler symbolically: one goal per path through the
    guard, the optional encoding and the generation call. *)
Ltac run_submit env w :=
  unfold world_after, trace_of, invoke, handleSubmit; cbn -[js];
  rewrite (guard_of_proceeds (app w));
  destruct (proceeds (app w)) eqn:Hguard; cbn -[js];
  [ destruct (uploadedImage (app w)) as [up|] eqn:Hup; cbn -[js];
    [ destruct (readAsDataURL env (file up))
        as [rd_result|rd_err] eqn:Hread; cbn -[js];
      [ match goal with
        | |- context [generateImage env ?p ?i] =>
            destruct (generateImage env p i)
              as [gen_result|gen_err] eqn:Hgen; cbn -[js]
        end | ]
    | destruct (generateImage env (prompt (app w)) None)
        as [gen_result|gen_err] eqn:Hgen; cbn -[js] ]
  | ].

Section SubmitRun.

Variable env : Env.
Variable w : World.

(** C5. In a state whose prompt is empty or blank after trimming, or
    whose loading flag is set, the submit handler issues no generation
    call and leaves the world, hence the five state variables, as it
    was. *)
Theorem submit_guard :
  trim (prompt (app w)) = [] \/ isLoading (app w) = true ->
  world_after env handleSubmit w = w /\
  generation_calls (trace_of env handleSubmit w) = [].
Proof.
  intros H%proceeds_false. run_submit env w; [congruence..|done].
Qed.

(** C1. With a non-blank prompt and no upload, when the generation call
    settles with the base64 text [s], the handler leaves the result
    ["data:image/png;base64," ++ s], no error and the loading flag
    cleared. *)
Theorem submit_success (s : JsString) :
  trim (prompt (app w)) <> [] ->
  uploadedImage (app w) = None ->
  EvSettle (GenerateImage (prompt (app w)) None) (Resolved s)
    ∈ trace_of env handleSubmit w ->
  let st := app (world_after env handleSubmit w) in
  generatedImage st = Some (js "data:image/png;base64," ++ s) /\
  error st = None /\ isLoading st = false.
Proof.
  intros Hp Hu. run_submit env w; intros H; in_trace; try congruence.
  by injection H as <-.
Qed.

(** The generation call settles in the trace as soon as the guard is
    passed and the service answers [s]. *)
Lemma submit_success_settles (s : JsString) :
  proceeds (app w) = true ->
  uploadedImage (app w) = None ->
  generateImage env (prompt (app w)) None = Resolved s ->
  EvSettle (GenerateImage (prompt (app w)) None) (Resolved s)
    ∈ trace_of env handleSubmit w.
Proof.
  intros Hp Hu Hs. run_submit env w; try congruence.
  injection Hs as <-. in_list.
Qed.

(** C4. When the generation call, or the reading of the upload before
    it, is rejected with [cause], the handler leaves the loading flag
    cleared, no result, the fixed message [failureMessage] (the same for
    every cause) as the error, and [cause] on the console; and every run
    that passes the guard leaves the loading flag cleared. *)
Theorem submit_failure :
  (forall r cause,
      EvSettle r (Rejected cause) ∈ trace_of env handleSubmit w ->
      let st := app (world_after env handleSubmit w) in
      isLoading st = false /\ generatedImage st = None /\
      error st = Some failureMessage /\
      EvConsoleError cause ∈ trace_of env handleSubmit w) /\
  (proceeds (app w) = true ->
   isLoading (app (world_after env handleSubmit w)) = false).
Proof.
  split.
  - intros r cause. run_submit env w; intros H; in_trace; try congruence;
      injection H as <- <-; split_and!; try done; in_list.
  - intros Hp. run_submit env w; congruence.
Qed.

(** C10. A submission that passes the guard hands the stored prompt to
    the generation service as it is, untrimmed: every call made carries
    it, and without an upload exactly one call is made. *)
Theorem submit_prompt_verbatim :
  proceeds (app w) = true ->
  (forall p image,
      (p, image) ∈ generation_calls (trace_of env handleSubmit w) ->
      p = prompt (app w)) /\
  (uploadedImage (app w) = None ->
   generation_calls (trace_of env handleSubmit w) = [(prompt (app w), None)]).
Proof.
  intros Hp. run_submit env w; try congruence;
    (split; [intros p image H; cbn in H; in_trace; congruence | try done]).
Qed.

(** C2, as amended. A submission that passes the guard (non-blank prompt,
    no call in flight) calls the generation service once with the stored
    prompt and no image when nothing is uploaded; once with the stored
    prompt and an image whose data is the base64 text of the file's bytes
    and whose media type is the file's declared type when the upload is
    read as its data URL; and not at all when reading the upload fails. *)
Theorem submit_call_arguments :
  proceeds (app w) = true ->
  let calls := generation_calls (trace_of env handleSubmit w) in
  (uploadedImage (app w) = None -> calls = [(prompt (app w), None)]) /\
  (forall up,
      uploadedImage (app w) = Some up ->
      reads_as_data_url env (file up) ->
      calls = [(prompt (app w),
                Some {| data := Some (Base64.encode (bytes (file up)));
                        mimeType := type (file up) |})]) /\
  (forall up cause,
      uploadedImage (app w) = Some up ->
      readAsDataURL env (file up) = Rejected cause ->
      calls = []).
Proof.
  intros Hp. run_submit env w; try congruence; cbn; split_and!; try done.
  all: try (intros up' cause' [= <-]; congruence).
  all: intros up' [= <-] (mediatype & Hm & Hr).
  all: rewrite Hr in Hread; try discriminate.
  all: injection Hread as <-.
  all: by rewrite dataURL_second_piece.
Qed.

End SubmitRun.

Lemma submit_guard_witness :
  (trim (prompt (app (page blank))) = [] /\
   world_after answering handleSubmit (page blank) = page blank /\
   generation_calls (trace_of answering handleSubmit (page blank)) = []) /\
  (isLoading (app busy_page) = true /\
   world_after answering handleSubmit busy_page = busy_page /\
   generation_calls (trace_of answering handleSubmit busy_page) = []).
Proof.
  split.
  - split; [reflexivity|].
    exact (submit_guard answering (page blank) (or_introl eq_refl)).
  - split; [reflexivity|].
    exact (submit_guard answering busy_page (or_intror eq_refl)).
Defined.

(** The end-to-end example: prompt [A red balloon], no upload, the
    service answers [Zm9v]. *)
Lemma submit_success_witness :
  trim (prompt (app (page balloon))) <> [] /\
  uploadedImage (app (page balloon)) = None /\
  EvSettle (GenerateImage (js "A red balloon") None) (Resolved (js "Zm9v"))
    ∈ trace_of answering handleSubmit (page balloon) /\
  generatedImage (app (world_after answering handleSubmit (page balloon))) =
    Some (js "data:image/png;base64,Zm9v") /\
  error (app (world_after answering handleSubmit (page balloon))) = None /\
  isLoading (app (world_after answering handleSubmit (page balloon))) = false.
Proof.
  set (w := page balloon).
  assert (H1 : trim (prompt (app w)) <> []) by (vm_compute; discriminate).
  assert (H2 : uploadedImage (app w) = None) by reflexivity.
  assert (H3 : EvSettle (GenerateImage (prompt (app w)) None)
                 (Resolved (js "Zm9v")) ∈ trace_of answering handleSubmit w)
    by (vm_compute; in_list).
  split_and!; [exact H1|exact H2|exact H3|..];
    apply (submit_success answering w (js "Zm9v") H1 H2 H3).
Defined.

Lemma submit_failure_witness :
  (EvSettle (GenerateImage (js "A red balloon") None) (Rejected (js "503"))
     ∈ trace_of failing handleSubmit (page balloon) /\
   isLoading (app (world_after failing handleSubmit (page balloon))) =
     false /\
   generatedImage (app (world_after failing handleSubmit (page balloon))) =
     None /\
   error (app (world_after failing handleSubmit (page balloon))) =
     Some (js "Failed to generate image. Please try again later.") /\
   EvConsoleError (js "503")
     ∈ trace_of failing handleSubmit (page balloon)) /\
  (EvSettle (ReadAsDataURL photo) (Rejected (js "NotReadableError"))
     ∈ trace_of unreadable handleSubmit editing_page /\
   error (app (world_after unreadable handleSubmit editing_page)) =
     Some (js "Failed to generate image. Please try again later.") /\
   EvConsoleError (js "NotReadableError")
     ∈ trace_of unreadable handleSubmit editing_page) /\
  (proceeds (app (page balloon)) = true /\
   isLoading (app (world_after answering handleSubmit (page balloon))) =
     false).
Proof.
  assert (H1 : EvSettle (GenerateImage (js "A red balloon") None)
                 (Rejected (js "503"))
                 ∈ trace_of failing handleSubmit (page balloon))
    by (vm_compute; in_list).
  assert (H2 : EvSettle (ReadAsDataURL photo)
                 (Rejected (js "NotReadableError"))
                 ∈ trace_of unreadable handleSubmit editing_page)
    by (vm_compute; in_list).
  split_and!.
  - exact H1.
  - exact (proj1 (proj1 (submit_failure failing (page balloon)) _ _ H1)).
  - exact (proj1 (proj2
             (proj1 (submit_failure failing (page balloon)) _ _ H1))).
  - exact (proj1 (proj2 (proj2
             (proj1 (submit_failure failing (page balloon)) _ _ H1)))).
  - exact (proj2 (proj2 (proj2
             (proj1 (submit_failure failing (page balloon)) _ _ H1)))).
  - exact H2.
  - exact (proj1 (proj2 (proj2
             (proj1 (submit_failure unreadable editing_page) _ _ H2)))).
  - exact (proj2 (proj2 (proj2
             (proj1 (submit_failure unreadable editing_page) _ _ H2)))).
  - reflexivity.
  - exact (proj2 (submit_failure answering (page balloon)) eq_refl).
Defined.

(** A prompt with white space at both ends is sent as it is. *)
Lemma submit_prompt_verbatim_witness :
  proceeds (app (page padded)) = true /\
  uploadedImage (app (page padded)) = None /\
  trim (js "  a cat  ") <> js "  a cat  " /\
  generation_calls (trace_of answering handleSubmit (page padded)) =
    [(js "  a cat  ", None)] /\
  (js "  a cat  ", None)
    ∈ generation_calls (trace_of answering handleSubmit (page padded)) /\
  js "  a cat  " = prompt (app (page padded)).
Proof.
  assert (H : (js "  a cat  ", None)
                ∈ generation_calls
                    (trace_of answering handleSubmit (page padded)))
    by (vm_compute; in_list).
  split; [reflexivity|]. split; [reflexivity|].
  split; [vm_compute; discriminate|]. split; [|split; [exact H|]].
  - exact (proj2 (submit_prompt_verbatim answering (page padded) eq_refl)
             eq_refl).
  - exact (proj1 (submit_prompt_verbatim answering (page padded) eq_refl)
             _ _ H).
Defined.

(** The end-to-end example: prompt [edit this] with an uploaded JPEG. *)
Lemma submit_call_arguments_witness :
  (proceeds (app editing_page) = true /\
   uploadedImage (app editing_page) =
     Some {| file := photo; preview := 0 |} /\
   reads_as_data_url answering photo /\
   generation_calls (trace_of answering handleSubmit editing_page) =
     [(js "edit this",
       Some {| data := Some (js "Zm9v"); mimeType := js "image/jpeg" |})]) /\
  (proceeds (app (page balloon)) = true /\
   uploadedImage (app (page balloon)) = None /\
   generation_calls (trace_of answering handleSubmit (page balloon)) =
     [(js "A red balloon", None)]) /\
  (readAsDataURL unreadable photo = Rejected (js "NotReadableError") /\
   generation_calls (trace_of unreadable handleSubmit editing_page) = []).
Proof.
  assert (H : reads_as_data_url answering photo).
  { exists (js "image/jpeg"). split; [|reflexivity].
    apply (bool_decide_unpack _). vm_compute. exact I. }
  split; [|split].
  - split; [reflexivity|]. split; [reflexivity|]. split; [exact H|].
    exact (proj1 (proj2
             (submit_call_arguments answering editing_page eq_refl))
             _ eq_refl H).
  - split; [reflexivity|]. split; [reflexivity|].
    exact (proj1 (submit_call_arguments answering (page balloon) eq_refl)
             eq_refl).
  - split; [reflexivity|].
    exact (proj2 (proj2
             (submit_call_arguments unreadable editing_page eq_refl))
             _ _ eq_refl eq_refl).
Defined.

(** C2 as stated fails: with a non-blank prompt and an uploaded image the
    generation service is not called when the upload cannot be read, nor
    while a call is in flight. *)
Lemma submit_without_call :
  (trim (prompt (app editing_page)) <> [] /\
   is_Some (uploadedImage (app editing_page)) /\
   generation_calls (trace_of unreadable handleSubmit editing_page) = []) /\
  (trim (prompt (app busy_page)) <> [] /\
   is_Some (uploadedImage (app busy_page)) /\
   generation_calls (trace_of answering handleSubmit busy_page) = []).
Proof.
  split; (split; [vm_compute; discriminate|]); (split; [by eexists|]);
    reflexivity.
Qed.

(** ** Removing the upload: what it leaves alone *)

Section SyncRun.

Variable env : Env.
Variable w : World.

(** C9. The remove operation leaves the result and the error as they
    were (and the prompt and the loading flag too). *)
Theorem remove_upload_frame :
  let st := app w in
  let st' := app (world_after env removeUploadedImage w) in
  generatedImage st' = generatedImage st /\ error st' = error st /\
  prompt st' = prompt st /\ isLoading st' = isLoading st.
Proof.
  unfold world_after, invoke, removeUploadedImage.
  destruct (uploadedImage (app w)); cbn;
    destruct (bool_decide (is_Some (fileInput w))); cbn; done.
Qed.

End SyncRun.

(** ** Sessions: the handlers up to their first await *)

Lemma start_handleSubmit_blocked st w :
  proceeds st = false ->
  start (handleSubmit st) w = (Finished (Resolved tt), w, [EvPreventDefault]).
Proof.
  intros H. unfold handleSubmit. cbn. by rewrite guard_of_proceeds, H.
Qed.

Lemma start_handleSubmit_proceeds st w :
  proceeds st = true ->
  exists r k,
    start (handleSubmit st) w =
      (Suspended r k, loading_world w, [EvPreventDefault; EvCall r]) /\
    SubmitTask {| awaiting := r; resume := k |} /\
    r = match uploadedImage st with
        | Some up => ReadAsDataURL (file up)
        | None => GenerateImage (prompt st) None
        end.
Proof.
  intros H. unfold handleSubmit. cbn. rewrite guard_of_proceeds, H. cbn.
  destruct (uploadedImage st) as [up|]; cbn.
  - eexists _, _. split; [reflexivity|]. split; [|reflexivity].
    apply (submit_reading _ (prompt st) (type (file up))). split.
    + intros err w'. reflexivity.
    + intros result w'. eexists. split; [reflexivity|].
      intros [b|err] w''; reflexivity.
  - eexists _, _. split; [reflexivity|]. split; [|reflexivity].
    apply submit_generating. intros [b|err] w'; reflexivity.
Qed.

Lemma start_handlePromptChange value w :
  start (handlePromptChange value) w =
  (Finished (Resolved tt), with_app (set_prompt value) w, []).
Proof. reflexivity. Qed.

Lemma start_handleImageUpload st files w :
  start (handleImageUpload st files) w =
  match files ≫= head with
  | Some f =>
      let '(w1, t1) := release_previous st w in
      (Finished (Resolved tt), uploaded_world f w1,
       t1 ++ [EvCreateObjectURL f (issued w)])
  | None => (Finished (Resolved tt), w, [])
  end.
Proof.
  unfold handleImageUpload, release_previous.
  destruct (files ≫= head); [|done]. by destruct (uploadedImage st).
Qed.

Lemma start_removeUploadedImage st w :
  start (removeUploadedImage st) w =
  let '(w1, t1) := release_previous st w in
  (Finished (Resolved tt), removed_world w1, t1).
Proof.
  unfold removeUploadedImage, release_previous.
  destruct (uploadedImage st); cbn; destruct w as [a [v|] n l]; cbn; done.
Qed.

Lemma start_handleDownload st w :
  exists t,
    start (handleDownload st) w = (Finished (Resolved tt), w, t) /\
    revoked t = [] /\ created t = [].
Proof.
  unfold handleDownload.
  destruct (generatedImage st) as [[|c url]|]; cbn; eauto.
Qed.

(** ** Sessions: the loading discipline *)

Lemma initial_disciplined : Disciplined initialSession.
Proof. split; cbn; [eauto|by split; [|left]|done]. Qed.

(** A handler that finishes at once and leaves the loading flag, the error
    and the result alone, or clears the latter two, keeps the discipline. *)
Lemma dispatch_disciplined p w w0 tasks past w' t :
  Disciplined {| world := w0; pending := tasks; history := past |} ->
  start p w = (Finished (Resolved tt), w', t) ->
  is_Some (fileInput w') ->
  isLoading (app w') = isLoading (app w0) ->
  (error (app w') = error (app w0) \/ error (app w') = None) ->
  (generatedImage (app w') = generatedImage (app w0) \/
   generatedImage (app w') = None) ->
  Disciplined (dispatch p w tasks past).
Proof.
  intros [Hm Hl Hr] Hs Hm' Hlo He Hg. unfold dispatch. rewrite Hs.
  cbn in Hl, Hr. split; cbn; [done| |].
  - destruct tasks as [|task [|]]; [|split; [apply Hl|]|done].
    + destruct Hl as [H1 H2]. split; [congruence|].
      destruct He as [-> | ->], Hg as [-> | ->]; auto.
    + destruct Hl as (_ & H1 & H2 & H3). split_and!.
      * congruence.
      * destruct He as [-> | ->]; done.
      * destruct Hg as [-> | ->]; done.
  - intros url. destruct Hg as [-> | ->]; [apply Hr|done].
Qed.

Lemma step_disciplined s i : Disciplined s -> Disciplined (step s i).
Proof.
  intros H. destruct s as [w tasks past].
  destruct i as [value|files| | | |i o]; unfold step;
    cbn [world pending history].
  - eapply dispatch_disciplined; [done|apply start_handlePromptChange|..];
      cbn; auto.
    apply H.
  - destruct (files ≫= head) as [f|] eqn:Hf;
      destruct (uploadedImage (app w)) as [up|] eqn:Hu.
    all: eapply dispatch_disciplined;
      [done
      |rewrite start_handleImageUpload, Hf; unfold release_previous;
       cbn [choose_files app]; rewrite ?Hu; reflexivity|..]; cbn; auto.
    all: destruct H as [[v Hv] _ _]; cbn in Hv; rewrite ?Hv; cbn; eauto.
  - destruct (uploadedImage (app w)) as [up|] eqn:Hu.
    all: eapply dispatch_disciplined;
      [done
      |rewrite start_removeUploadedImage; unfold release_previous;
       rewrite Hu; reflexivity|..]; cbn; auto.
    all: destruct H as [[v Hv] _ _]; cbn in Hv; rewrite ?Hv; cbn; eauto.
  - destruct H as [Hm Hl Hr]. cbn in Hm, Hl, Hr. unfold dispatch.
    destruct (proceeds (app w)) eqn:Hp.
    + destruct (start_handleSubmit_proceeds (app w) w Hp)
        as (r & k & -> & Hk & _).
      split; cbn; [done| |done].
      destruct tasks as [|task tasks]; cbn; [done|].
      exfalso. destruct tasks; [|done]. destruct Hl as (_ & Hl & _).
      unfold proceeds in Hp. rewrite Hl, orb_true_r in Hp. done.
    + rewrite (start_handleSubmit_blocked _ _ Hp). by split.
  - destruct (start_handleDownload (app w) w) as (t & Ht & _).
    eapply dispatch_disciplined; [done|apply Ht|..]; auto. apply H.
  - destruct H as [Hm Hl Hr]. cbn in Hm, Hl, Hr.
    destruct tasks as [|task [|]]; [by split| |done].
    destruct i as [|i]; cbn [lookup list_lookup]; [|by split].
    destruct Hl as (Ht & Hl & He & Hg). unfold dispatch.
    destruct Ht as [p image k Hk|f p mime k [Hk1 Hk2]]; cbn [resume awaiting].
    + rewrite Hk. destruct o as [b|err]; cbn.
      * split; cbn; [done|by split; auto|]. intros url [= <-]. eauto.
      * split; cbn; [done|by split; auto|]. by rewrite Hg.
    + destruct o as [result|err].
      * destruct (Hk2 result w) as (k' & -> & Hk'). cbn.
        split; cbn; [done| |done]. split; [by constructor|done].
      * rewrite Hk1. cbn. split; cbn; [done|by split; auto|]. by rewrite Hg.
Qed.

Lemma steps_disciplined inputs s :
  Disciplined s -> Disciplined (steps s inputs).
Proof.
  revert s. induction inputs as [|i inputs IH]; intros s H; cbn; [done|].
  apply IH, step_disciplined, H.
Qed.

(** ** Sessions: accounting of object URLs *)

Lemma revoked_app t1 t2 : revoked (t1 ++ t2) = revoked t1 ++ revoked t2.
Proof. apply omap_app. Qed.

Lemma created_app t1 t2 : created (t1 ++ t2) = created t1 ++ created t2.
Proof. apply omap_app. Qed.

Lemma initial_accounted : Accounted initialSession.
Proof.
  split; cbn; try done; try (intros u H; by apply elem_of_nil in H).
  constructor.
Qed.

Lemma accounted_neutral s s' :
  Accounted s ->
  uploadedImage (app (world s')) = uploadedImage (app (world s)) ->
  live (world s') = live (world s) ->
  issued (world s') = issued (world s) ->
  revoked (history s') = revoked (history s) ->
  created (history s') = created (history s) ->
  Accounted s'.
Proof.
  intros [H1 H2 H3 H4 H5] Hu Hl Hi Hr Hc.
  split; rewrite ?Hu, ?Hl, ?Hi, ?Hr, ?Hc; done.
Qed.

Lemma dispatch_neutral s p w tasks past res w' t :
  Accounted s ->
  start p w = (res, w', t) ->
  uploadedImage (app w') = uploadedImage (app (world s)) ->
  live w' = live (world s) -> issued w' = issued (world s) ->
  revoked t = [] -> created t = [] ->
  revoked past = revoked (history s) ->
  created past = created (history s) ->
  Accounted (dispatch p w tasks past).
Proof.
  intros H Hs Hu Hl Hi Hr Hc Hr' Hc'. unfold dispatch. rewrite Hs.
  eapply accounted_neutral; [exact H|..]; cbn; try done.
  - by rewrite revoked_app, Hr, Hr', app_nil_r.
  - by rewrite created_app, Hc, Hc', app_nil_r.
Qed.

Lemma step_accounted s i :
  Disciplined s -> Accounted s -> Accounted (step s i).
Proof.
  intros HD HA. destruct s as [w tasks past].
  destruct i as [value|files| | | |i o]; unfold step;
    cbn [world pending history].
  - eapply dispatch_neutral; [done|apply start_handlePromptChange|..]; done.
  - destruct (files ≫= head) as [f|] eqn:Hf.
    + unfold dispatch. rewrite start_handleImageUpload, Hf.
      unfold release_previous. cbn [choose_files app issued].
      destruct HA as [H1 H2 H3 H4 H5]. cbn in H1, H2, H3, H4, H5.
      destruct (uploadedImage (app w)) as [up|] eqn:Hu.
      * destruct H4 as (Hc & Hr & Hl).
        split; cbn; rewrite ?revoked_app, ?created_app; cbn.
        -- intros u [Hu'|Hu']%elem_of_app.
           ++ apply H1 in Hu'. lia.
           ++ apply list_elem_of_singleton in Hu' as ->. lia.
        -- intros u [Hu'|Hu']%elem_of_app; apply elem_of_app; left; [auto|].
           by apply list_elem_of_singleton in Hu' as ->.
        -- apply NoDup_app. split_and!; [done| |apply NoDup_singleton].
           intros u Hu' ->%list_elem_of_singleton. done.
        -- split_and!.
           ++ apply elem_of_app. right. by apply list_elem_of_singleton.
           ++ intros [Hi|Hi]%elem_of_app.
              ** apply H2, H1 in Hi. lia.
              ** apply list_elem_of_singleton in Hi. apply H1 in Hc. lia.
           ++ by rewrite Hl, difference_diag_L, (left_id_L ∅ (∪)).
        -- intros u [Hu'|Hu']%elem_of_app.
           ++ left. apply elem_of_app.
              destruct (H5 u Hu') as [?|(up' & [= <-] & <-)]; [by left|].
              right. by apply list_elem_of_singleton.
           ++ right. apply list_elem_of_singleton in Hu' as ->. eauto.
      * split; cbn; rewrite ?revoked_app, ?created_app; cbn; rewrite ?app_nil_r.
        -- intros u [Hu'|Hu']%elem_of_app.
           ++ apply H1 in Hu'. lia.
           ++ apply list_elem_of_singleton in Hu' as ->. lia.
        -- intros u Hu'. apply elem_of_app; left; auto.
        -- done.
        -- split_and!.
           ++ apply elem_of_app. right. by apply list_elem_of_singleton.
           ++ intros Hi. apply H2, H1 in Hi. lia.
           ++ by rewrite H4, (left_id_L ∅ (∪)).
        -- intros u [Hu'|Hu']%elem_of_app.
           ++ left. by destruct (H5 u Hu') as [?|(up' & [=] & _)].
           ++ right. apply list_elem_of_singleton in Hu' as ->. eauto.
    + eapply dispatch_neutral;
        [done|by rewrite start_handleImageUpload, Hf|..]; done.
  - unfold dispatch. rewrite start_removeUploadedImage. unfold release_previous.
    destruct HA as [H1 H2 H3 H4 H5]. cbn in H1, H2, H3, H4, H5.
    destruct (uploadedImage (app w)) as [up|] eqn:Hu.
    + destruct H4 as (Hc & Hr & Hl).
      split; cbn; rewrite ?revoked_app, ?created_app; cbn; rewrite ?app_nil_r.
      * done.
      * intros u [Hu'|Hu']%elem_of_app; [auto|].
        by apply list_elem_of_singleton in Hu' as ->.
      * apply NoDup_app. split_and!; [done| |apply NoDup_singleton].
        intros u Hu' ->%list_elem_of_singleton. done.
      * by rewrite Hl, difference_diag_L.
      * intros u Hu'. left. apply elem_of_app.
        destruct (H5 u Hu') as [?|(up' & [= <-] & <-)]; [by left|].
        right. by apply list_elem_of_singleton.
    + split; cbn; rewrite ?app_nil_r; try done.
  - destruct (proceeds (app w)) eqn:Hp.
    + destruct (start_handleSubmit_proceeds (app w) w Hp)
        as (r & k & Hs & _ & _).
      eapply dispatch_neutral; [done|apply Hs|..]; done.
    + eapply dispatch_neutral;
        [done|by apply start_handleSubmit_blocked|..]; done.
  - destruct (start_handleDownload (app w) w) as (t & Ht & ? & ?).
    eapply dispatch_neutral; [done|apply Ht|..]; done.
  - destruct HD as [_ Hl _]. cbn in Hl.
    destruct tasks as [|task [|]]; [done| |done].
    destruct i as [|i]; cbn [lookup list_lookup]; [|done].
    destruct Hl as (Ht & _).
    destruct Ht as [p image k Hk|f p mime k [Hk1 Hk2]]; cbn [resume awaiting].
    + eapply dispatch_neutral; [done|apply Hk|..]; try done.
      all: try by destruct o.
      all: by rewrite ?revoked_app, ?created_app, app_nil_r.
    + destruct o as [result|err].
      * destruct (Hk2 result w) as (k' & Hs & _).
        eapply dispatch_neutral; [done|apply Hs|..]; try done.
        all: by rewrite ?revoked_app, ?created_app, app_nil_r.
      * eapply dispatch_neutral; [done|apply Hk1|..]; try done.
        all: by rewrite ?revoked_app, ?created_app, app_nil_r.
Qed.

Lemma steps_invariant inputs s :
  Disciplined s -> Accounted s ->
  Disciplined (steps s inputs) /\ Accounted (steps s inputs).
Proof.
  revert s. induction inputs as [|i inputs IH]; intros s HD HA; cbn; [done|].
  apply IH; [by apply step_disciplined|by apply step_accounted].
Qed.

Lemma session_invariant inputs :
  Disciplined (steps initialSession inputs) /\
  Accounted (steps initialSession inputs).
Proof.
  apply steps_invariant; [apply initial_disciplined|apply initial_accounted].
Qed.
(** ** Sequences of completed operations *)

Lemma shown_settled st : settled_state st -> (shown st <= 1)%nat.
Proof.
  intros [Hl [He | Hg]]; unfold shown; rewrite Hl, ?He, ?Hg;
    repeat case_match; lia.
Qed.

Lemma shown_loading st : loading_state st -> (shown st <= 1)%nat.
Proof. intros (Hl & He & Hg). unfold shown. by rewrite Hl, He, Hg. Qed.

Lemma run_handleDownload env st w :
  exists t,
    run env (handleDownload st) w = (Resolved tt, w, t) /\
    (generatedImage st = None -> t = []).
Proof.
  unfold handleDownload.
  destruct (generatedImage st) as [[|c url]|]; cbn;
    (eexists; split; [reflexivity|done]).
Qed.

Lemma perform_op_settled w op :
  settled_state (app w) -> settled_state (app (perform_op w op).1).
Proof.
  intros [Hl Hs]. destruct op as [value|files| |env|]; unfold perform_op.
  - done.
  - unfold invoke, handleImageUpload. cbn.
    destruct (files ≫= head); [|done].
    destruct (uploadedImage (app w)); cbn; split; auto.
  - unfold invoke, removeUploadedImage.
    destruct (uploadedImage (app w)); cbn;
      destruct (bool_decide (is_Some (fileInput w))); done.
  - run_submit env w; split; auto.
  - destruct (run_handleDownload silent (app w) w) as (t & Ht & _).
    unfold invoke. by rewrite Ht.
Qed.

Lemma perform_ops_settled ops w :
  settled_state (app w) -> settled_state (app (perform_ops w ops).1).
Proof.
  revert w. induction ops as [|op ops IH]; intros w H; cbn; [done|].
  destruct (perform_op w op) as [w1 t1] eqn:E1.
  specialize (IH w1). destruct (perform_ops w1 ops) as [w2 t2]. cbn in *.
  apply IH. by rewrite <- (f_equal fst E1 : (perform_op w op).1 = w1);
    apply perform_op_settled.
Qed.

(** C3. After any sequence of completed operations on the freshly
    mounted page (typing, choosing files, removing the upload, submitting
    with any answers of the outside, downloading), at most one of
    loading, error and result holds; so it is in every state of every
    interleaved session, also while a submission is in flight. *)
Theorem at_most_one_shown :
  (forall ops, (shown (app (perform_ops initialWorld ops).1) <= 1)%nat) /\
  (forall inputs,
      (shown (app (world (steps initialSession inputs))) <= 1)%nat).
Proof.
  split.
  - intros ops. apply shown_settled, perform_ops_settled.
    split; [done|by left].
  - intros inputs.
    destruct (session_invariant inputs) as [[_ Hl _] _].
    destruct (pending (steps initialSession inputs)) as [|task [|]];
      [by apply shown_settled|by apply shown_loading, Hl|done].
Qed.

(** ** Histories *)

Lemma step_history s i : exists t, history (step s i) = history s ++ t.
Proof.
  destruct i as [value|files| | | |i o]; unfold step, dispatch.
  1-5: match goal with
       | |- context [start ?p ?w] => destruct (start p w) as [[res w'] t]
       end; by eexists.
  destruct (pending s !! i) as [task|]; [|exists []; by rewrite app_nil_r].
  destruct (start (resume task o) (world s)) as [[res w'] t]. cbn.
  eexists. by rewrite <- app_assoc.
Qed.

Lemma steps_cons s i inputs : steps s (i :: inputs) = steps (step s i) inputs.
Proof. reflexivity. Qed.

Lemma steps_history inputs s :
  exists t, history (steps s inputs) = history s ++ t.
Proof.
  revert s. induction inputs as [|i inputs IH]; intros s.
  - exists []. by rewrite app_nil_r.
  - rewrite steps_cons.
    destruct (IH (step s i)) as [t2 ->]. destruct (step_history s i) as [t1 ->].
    eexists. by rewrite <- app_assoc.
Qed.

Lemma steps_app s inputs1 inputs2 :
  steps s (inputs1 ++ inputs2) = steps (steps s inputs1) inputs2.
Proof. apply foldl_app. Qed.

Lemma filter_eq_absent (u : ObjectURL) (l : list ObjectURL) :
  u ∉ l -> filter (fun v => v = u) l = [].
Proof.
  induction l as [|x l IH]; [done|]. intros [Hx Hl]%not_elem_of_cons.
  rewrite filter_cons_False by congruence. auto.
Qed.

(** A URL that occurs in a duplicate-free list of revocations is released
    exactly once. *)
Lemma releases_once u t :
  NoDup (revoked t) -> u ∈ revoked t -> releases u t = 1%nat.
Proof.
  unfold releases. generalize (revoked t). intros l.
  induction 1 as [|x l Hx Hl IH]; intros Hu; [by apply elem_of_nil in Hu|].
  apply elem_of_cons in Hu as [<- | Hu].
  - rewrite filter_cons_True by done. cbn. by rewrite filter_eq_absent.
  - rewrite filter_cons_False; [auto|]. intros ->. done.
Qed.

Lemma dispatch_finished p w tasks past res w' t :
  start p w = (Finished res, w', t) ->
  dispatch p w tasks past =
  {| world := w'; pending := tasks; history := past ++ t |}.
Proof. intros H. unfold dispatch. by rewrite H. Qed.

Lemma dispatch_suspended p w tasks past r k w' t :
  start p w = (Suspended r k, w', t) ->
  dispatch p w tasks past =
  {| world := w'; pending := tasks ++ [{| awaiting := r; resume := k |}];
     history := past ++ t |}.
Proof. intros H. unfold dispatch. by rewrite H. Qed.

(** ** Uploading *)

(** C6. Invoked with a selected file, the upload handler revokes the
    preview URL of the previous upload, if there is one, exactly once,
    stores the file with the URL it has just created, and clears the
    result and the error.  Over a whole session that URL is new, and the
    previous one is released exactly once however the session goes on. *)
Theorem upload_releases_previous_once :
  (forall env w f rest,
      let handler := fun cl => handleImageUpload cl (Some (f :: rest)) in
      let w' := world_after env handler w in
      let t := trace_of env handler w in
      app w' =
        {| prompt := prompt (app w); generatedImage := None;
           uploadedImage := Some {| file := f; preview := issued w |};
           isLoading := isLoading (app w); error := None |} /\
      created t = [issued w] /\
      (forall up, uploadedImage (app w) = Some up ->
                  revoked t = [preview up] /\
                  releases (preview up) t = 1%nat) /\
      (uploadedImage (app w) = None -> revoked t = [])) /\
  (forall before after f rest up,
      let s := steps initialSession before in
      let s' := step s (ChangeFiles (Some (f :: rest))) in
      uploadedImage (app (world s)) = Some up ->
      (issued (world s) ∉ created (history s)) /\
      uploadedImage (app (world s')) =
        Some {| file := f; preview := issued (world s) |} /\
      releases (preview up) (history s) = 0%nat /\
      releases (preview up) (history (steps s' after)) = 1%nat).
Proof.
  split.
  - intros env w f rest.
    unfold world_after, trace_of, invoke, handleImageUpload. cbn.
    destruct (uploadedImage (app w)) as [up|]; cbn; split_and!; try done.
    intros ? [= <-]. split; [done|]. unfold releases. cbn.
    by rewrite decide_True.
  - intros before after f rest up s s' Hup.
    destruct (session_invariant before) as [_ [H1 H2 H3 H4 H5]].
    fold s in H1, H2, H3, H4, H5. rewrite Hup in H4.
    destruct H4 as (Hc & Hr & _).
    assert (Hs' : history s' =
                  history s ++ [EvRevokeObjectURL (preview up);
                                EvCreateObjectURL f (issued (world s))] /\
                  uploadedImage (app (world s')) =
                  Some {| file := f; preview := issued (world s) |}).
    { unfold s', step, dispatch. rewrite start_handleImageUpload.
      unfold release_previous. cbn. by rewrite Hup. }
    destruct Hs' as [Hh Hu']. split_and!.
    + intros Hi%H1. lia.
    + exact Hu'.
    + unfold releases. by rewrite filter_eq_absent.
    + destruct (session_invariant
                  (before ++ ChangeFiles (Some (f :: rest)) :: after))
        as [_ [_ _ Hnd _ _]].
      rewrite steps_app, steps_cons in Hnd. fold s in Hnd. fold s' in Hnd.
      apply releases_once; [done|].
      destruct (steps_history after s') as [t ->].
      rewrite Hh, !revoked_app. cbn.
      apply elem_of_app. left. apply elem_of_app. right. in_list.
Qed.

Lemma upload_releases_previous_once_witness :
  (uploadedImage (app editing_page) =
     Some {| file := photo; preview := 0 |} /\
   revoked (trace_of silent
              (fun cl => handleImageUpload cl (Some [sketch])) editing_page) =
     [0] /\
   releases 0 (trace_of silent
                 (fun cl => handleImageUpload cl (Some [sketch]))
                 editing_page) = 1%nat) /\
  (uploadedImage
     (app (world (steps initialSession [ChangeFiles (Some [photo])]))) =
     Some {| file := photo; preview := 0 |} /\
   releases 0
     (history
        (steps (step (steps initialSession [ChangeFiles (Some [photo])])
                  (ChangeFiles (Some [sketch])))
           [ClickRemove; ChangeFiles (Some [photo]); ClickRemove])) = 1%nat).
Proof.
  split.
  - split; [reflexivity|].
    exact (proj1 (proj2 (proj2 (proj1 upload_releases_previous_once
                                  silent editing_page sketch [])))
             _ eq_refl).
  - split; [reflexivity|].
    exact (proj2 (proj2 (proj2
             (proj2 upload_releases_previous_once
                [ChangeFiles (Some [photo])]
                [ClickRemove; ChangeFiles (Some [photo]); ClickRemove]
                sketch [] _ eq_refl)))).
Defined.

(** ** Removing the upload *)

(** C7. With an image uploaded, the remove operation revokes that
    image's preview URL, which is then no longer live, clears the upload
    and sets the value of the file input behind the ref to the empty
    string.  In a session the ref is never null, so the value is the
    empty string afterwards, no object URL stays live and the preview
    has been released exactly once. *)
Theorem remove_upload :
  (forall env w up,
      uploadedImage (app w) = Some up ->
      let w' := world_after env removeUploadedImage w in
      trace_of env removeUploadedImage w = [EvRevokeObjectURL (preview up)] /\
      (preview up ∉ live w') /\
      uploadedImage (app w') = None /\
      fileInput w' = const [] <$> fileInput w) /\
  (forall inputs up,
      let s := steps initialSession inputs in
      let s' := step s ClickRemove in
      uploadedImage (app (world s)) = Some up ->
      fileInput (world s') = Some [] /\
      uploadedImage (app (world s')) = None /\
      live (world s') = ∅ /\
      releases (preview up) (history s') = 1%nat).
Proof.
  split.
  - intros env w up Hup.
    unfold world_after, trace_of, invoke, removeUploadedImage.
    rewrite Hup. cbn. destruct (fileInput w) as [v|] eqn:Hv; cbn.
    all: split_and!; try done.
    all: intros [_ Hne]%elem_of_difference; apply Hne;
      by apply elem_of_singleton.
  - intros inputs up s s' Hup.
    destruct (session_invariant inputs) as [[[v Hm] _ _] [_ _ _ Hc _]].
    fold s in Hm, Hc. rewrite Hup in Hc. destruct Hc as (_ & _ & Hl).
    destruct (session_invariant (inputs ++ [ClickRemove]))
      as [_ [_ _ Hnd _ _]].
    rewrite steps_app in Hnd. change (NoDup (revoked (history s'))) in Hnd.
    assert (E : s' = {| world := removed_world
                          {| app := app (world s);
                             fileInput := fileInput (world s);
                             issued := issued (world s);
                             live := live (world s) ∖ {[preview up]} |};
                        pending := pending s;
                        history := history s ++
                                   [EvRevokeObjectURL (preview up)] |}).
    { unfold s', step. apply (dispatch_finished _ _ _ _ (Resolved tt)).
      rewrite start_removeUploadedImage. unfold release_previous.
      by rewrite Hup. }
    rewrite E in Hnd |- *. cbn. rewrite Hm, Hl. split_and!; try done.
    + by rewrite difference_diag_L.
    + apply releases_once; [done|]. rewrite revoked_app.
      apply elem_of_app. right. cbn. in_list.
Qed.

Lemma remove_upload_witness :
  (uploadedImage (app editing_page) =
     Some {| file := photo; preview := 0 |} /\
   trace_of silent removeUploadedImage editing_page = [EvRevokeObjectURL 0] /\
   (0 ∉ live (world_after silent removeUploadedImage editing_page)) /\
   uploadedImage (app (world_after silent removeUploadedImage editing_page)) =
     None /\
   fileInput (world_after silent removeUploadedImage editing_page) =
     Some []) /\
  (uploadedImage
     (app (world (steps initialSession [ChangeFiles (Some [photo])]))) =
     Some {| file := photo; preview := 0 |} /\
   fileInput
     (world (steps initialSession [ChangeFiles (Some [photo])])) =
     Some (js "C:\fakepath\photo.jpg") /\
   fileInput
     (world (step (steps initialSession [ChangeFiles (Some [photo])])
               ClickRemove)) = Some []).
Proof.
  split.
  - split; [reflexivity|].
    exact (proj1 remove_upload silent editing_page _ eq_refl).
  - split; [reflexivity|]. split; [reflexivity|].
    exact (proj1 (proj2 remove_upload [ChangeFiles (Some [photo])] _ eq_refl)).
Defined.

(** ** Downloading *)

Lemma dataUrlPrefix_app_nonempty b : dataUrlPrefix ++ b <> [].
Proof. discriminate. Qed.

(** C8. The download handler leaves the world, hence the five state
    variables, as it was; without a result it does nothing at all; with a
    result it appends, clicks and removes an anchor whose address is the
    stored data URL and whose file name is [generated-image.png].  In a
    session every stored result is such a non-empty data URL. *)
Theorem download_frame :
  (forall env w,
      world_after env handleDownload w = w /\
      (generatedImage (app w) = None -> trace_of env handleDownload w = []) /\
      (forall url,
          generatedImage (app w) = Some url -> url <> [] ->
          trace_of env handleDownload w =
          [EvAppendChild (saveLink url); EvClick (saveLink url);
           EvRemoveChild (saveLink url)])) /\
  (forall inputs env url,
      let w := world (steps initialSession inputs) in
      generatedImage (app w) = Some url ->
      trace_of env handleDownload w =
      [EvAppendChild (saveLink url); EvClick (saveLink url);
       EvRemoveChild (saveLink url)]).
Proof.
  assert (forall env w url,
             generatedImage (app w) = Some url -> url <> [] ->
             trace_of env handleDownload w =
             [EvAppendChild (saveLink url); EvClick (saveLink url);
              EvRemoveChild (saveLink url)]) as Hsave.
  { intros env w url Hg Hne. unfold trace_of, invoke, handleDownload.
    rewrite Hg. by destruct url. }
  split.
  - intros env w. split_and!; [| |by apply Hsave].
    + destruct (run_handleDownload env (app w) w) as (t & Ht & _).
      unfold world_after, invoke. by rewrite Ht.
    + intros Hg. destruct (run_handleDownload env (app w) w) as (t & Ht & Hn).
      unfold trace_of, invoke. rewrite Ht. by apply Hn.
  - intros inputs env url w Hg. apply Hsave; [done|].
    destruct (session_invariant inputs) as [[_ _ Hr] _].
    destruct (Hr url Hg) as [b ->]. apply dataUrlPrefix_app_nonempty.
Qed.

Lemma download_frame_witness :
  (generatedImage (app (page done_state)) =
     Some (js "data:image/png;base64,Zm9v") /\
   js "data:image/png;base64,Zm9v" <> [] /\
   trace_of silent handleDownload (page done_state) =
     [EvAppendChild (saveLink (js "data:image/png;base64,Zm9v"));
      EvClick {| href := js "data:image/png;base64,Zm9v";
                 download := js "generated-image.png" |};
      EvRemoveChild (saveLink (js "data:image/png;base64,Zm9v"))]) /\
  (generatedImage
     (app (world (steps initialSession
                    [ChangePrompt (js "A red balloon"); Submit;
                     Settle 0 (Resolved (js "Zm9v"))]))) =
     Some (js "data:image/png;base64,Zm9v") /\
   trace_of silent handleDownload
     (world (steps initialSession
               [ChangePrompt (js "A red balloon"); Submit;
                Settle 0 (Resolved (js "Zm9v"))])) =
     [EvAppendChild (saveLink (js "data:image/png;base64,Zm9v"));
      EvClick (saveLink (js "data:image/png;base64,Zm9v"));
      EvRemoveChild (saveLink (js "data:image/png;base64,Zm9v"))]).
Proof.
  assert (H : js "data:image/png;base64,Zm9v" <> [])
    by (vm_compute; discriminate).
  split.
  - split; [reflexivity|]. split; [exact H|].
    exact (proj2 (proj2 (proj1 download_frame silent (page done_state)))
             _ eq_refl H).
  - split; [reflexivity|].
    exact (proj2 download_frame
             [ChangePrompt (js "A red balloon"); Submit;
              Settle 0 (Resolved (js "Zm9v"))] silent _ eq_refl).
Defined.

(** ** Completed operations are sessions *)

(** Running to completion is starting and, at every await, going on with
    the answer of the outside. *)
Lemma run_start {A : Type} env (p : Prog A) w :
  run env p w =
  match start p w with
  | (Finished res, w', t) => (res, w', t)
  | (Suspended r k, w', t) =>
      let o := answer env r in
      let '(res, w'', t') := run env (k o) w' in
      (res, w'', t ++ EvSettle r o :: t')
  end.
Proof.
  revert w. induction p as [a|err|X e k IH|r k IH]; intros w; cbn.
  - done.
  - done.
  - destruct (exec e w) as [[x w1] t1]. rewrite IH.
    destruct (start (k x) w1) as [[[res|r k'] w2] t2]; [done|].
    cbv zeta. destruct (run env (k' (answer env r)) w2) as [[res w3] t3].
    by rewrite (assoc_L (++)).
  - by destruct (run env (k (answer env r)) w) as [[res w2] t2].
Qed.

Lemma run_finished {A : Type} env (p : Prog A) w res w' t :
  start p w = (Finished res, w', t) -> run env p w = (res, w', t).
Proof. intros H. by rewrite run_start, H. Qed.

Lemma settle_next_io env s : exists inputs, settle_next env s = steps s inputs.
Proof.
  unfold settle_next. destruct (pending s) as [|task ?].
  - by exists [].
  - by eexists [_].
Qed.

Lemma op_step_io s op : exists inputs, op_step s op = steps s inputs.
Proof.
  destruct op as [value|files| |env|]; cbn [op_step].
  1-3, 5: by eexists [_].
  destruct (settle_next_io env (step s Submit)) as [l1 E1].
  destruct (settle_next_io env (settle_next env (step s Submit))) as [l2 E2].
  exists (Submit :: l1 ++ l2).
  by rewrite steps_cons, steps_app, <- E1, <- E2.
Qed.

Lemma settle_next_single env w task past :
  settle_next env {| world := w; pending := [task]; history := past |} =
  let o := answer env (awaiting task) in
  dispatch (resume task o) w [] (past ++ [EvSettle (awaiting task) o]).
Proof. reflexivity. Qed.

(** On a session with nothing in flight, a completed operation is the
    corresponding run of steps. *)
Lemma op_step_perform s op :
  pending s = [] ->
  op_step s op =
  {| world := (perform_op (world s) op).1; pending := [];
     history := history s ++ (perform_op (world s) op).2 |}.
Proof.
  destruct s as [w tasks past]. cbn [pending world history]. intros ->.
  destruct op as [value|files| |env|]; unfold op_step, perform_op, invoke.
  - done.
  - unfold step. cbn [world pending history].
    pose proof (start_handleImageUpload (app w) files (choose_files files w))
      as E.
    destruct (files ≫= head);
      [destruct (release_previous (app w) (choose_files files w))|].
    all: by rewrite (dispatch_finished _ _ _ _ _ _ _ E),
           (run_finished _ _ _ _ _ _ E).
  - unfold step. cbn [world pending history].
    pose proof (start_removeUploadedImage (app w) w) as E.
    destruct (release_previous (app w) w) as [w1 t1].
    by rewrite (dispatch_finished _ _ _ _ _ _ _ E),
         (run_finished _ _ _ _ _ _ E).
  - unfold step at 1. cbn [world pending history].
    destruct (proceeds (app w)) eqn:Hp.
    + destruct (start_handleSubmit_proceeds (app w) w Hp)
        as (r & k & Hs & Hk & _).
      rewrite (dispatch_suspended _ _ _ _ _ _ _ _ Hs), run_start, Hs.
      rewrite app_nil_l, settle_next_single. cbv zeta.
      cbn [awaiting resume].
      inversion Hk as [p image k0 Hk0|f p mime k0 [Hk1 Hk2]]; subst.
      * rewrite (dispatch_finished _ _ _ _ _ _ _ (Hk0 _ _)),
          (run_finished _ _ _ _ _ _ (Hk0 _ _)).
        cbn. by rewrite <- !app_assoc.
      * destruct (answer env (ReadAsDataURL f)) as [result|err].
        -- destruct (Hk2 result (loading_world w)) as (k' & Hs' & Hk').
           rewrite (dispatch_suspended _ _ _ _ _ _ _ _ Hs'), run_start, Hs'.
           rewrite app_nil_l, settle_next_single. cbv zeta.
           cbn [awaiting resume].
           rewrite (dispatch_finished _ _ _ _ _ _ _ (Hk' _ _)),
             (run_finished _ _ _ _ _ _ (Hk' _ _)).
           cbn. by rewrite <- !app_assoc.
        -- rewrite (dispatch_finished _ _ _ _ _ _ _ (Hk1 _ _)),
             (run_finished _ _ _ _ _ _ (Hk1 _ _)).
           cbn. by rewrite <- !app_assoc.
    + pose proof (start_handleSubmit_blocked _ w Hp) as E.
      by rewrite (dispatch_finished _ _ _ _ _ _ _ E),
           (run_finished _ _ _ _ _ _ E).
  - unfold step. cbn [world pending history].
    destruct (start_handleDownload (app w) w) as (t & Ht & _).
    by rewrite (dispatch_finished _ _ _ _ _ _ _ Ht),
         (run_finished _ _ _ _ _ _ Ht).
Qed.

(** Every world reached by completed operations is the world of a session
    with nothing in flight, with the same trace. *)
Lemma perform_ops_session ops :
  exists inputs,
    steps initialSession inputs =
    {| world := (perform_ops initialWorld ops).1; pending := [];
       history := (perform_ops initialWorld ops).2 |}.
Proof.
  change initialWorld with (world initialSession).
  assert (Hp : pending initialSession = []) by done.
  assert (Hh : history initialSession = []) by done.
  revert Hp Hh. generalize initialSession. intros s Hp Hh.
  assert (exists inputs,
             steps s inputs =
             {| world := (perform_ops (world s) ops).1; pending := [];
                history := history s ++ (perform_ops (world s) ops).2 |})
    as (inputs & E); [|exists inputs; by rewrite E, Hh].
  clear Hh. revert s Hp.
  induction ops as [|op ops IH]; intros s Hp.
  - exists []. destruct s. cbn in *. by rewrite Hp, app_nil_r.
  - pose proof (op_step_perform s op Hp) as E.
    destruct (op_step_io s op) as [l1 E1]. rewrite E1 in E.
    destruct (IH (steps s l1)) as [l2 E2]; [by rewrite E|].
    exists (l1 ++ l2). rewrite steps_app, E2, E.
    cbn [world history perform_ops].
    destruct (perform_op (world s) op) as [w1 t1]. cbn [fst snd].
    destruct (perform_ops w1 ops) as [w2 t2]. cbn. by rewrite <- app_assoc.
Qed.

(** ** Sessions with a submission in flight *)

(** While a call is in flight a second submission adds no task and
    leaves the world as it is. *)
Lemma session_submit_in_flight inputs :
  let s := steps initialSession inputs in
  isLoading (app (world s)) = true ->
  world (step s Submit) = world s /\ pending (step s Submit) = pending s /\
  history (step s Submit) = history s ++ [EvPreventDefault].
Proof.
  intros s Hl. unfold step, dispatch.
  rewrite start_handleSubmit_blocked; [done|].
  apply proceeds_false. by right.
Qed.

(** The loading flag is set exactly while a submission is in flight, and
    at most one is. *)
Lemma session_loading_iff_pending inputs :
  let s := steps initialSession inputs in
  (isLoading (app (world s)) = true <-> exists task, pending s = [task]) /\
  (isLoading (app (world s)) = false <-> pending s = []).
Proof.
  intros s. destruct (session_invariant inputs) as [[_ Hl _] _]. fold s in Hl.
  destruct (pending s) as [|task [|]]; [| |done].
  - destruct Hl as [Hl _]. rewrite Hl. split; split; try done.
    by intros [? ?].
  - destruct Hl as (_ & Hl & _). rewrite Hl. split; split; try done.
    by exists task.
Qed.

(** When the generation call of the submission in flight settles, the
    session shows the result or the failure message, whatever was handled
    in between. *)
Lemma session_generation_settles inputs task p image o :
  let s := steps initialSession inputs in
  let s' := step s (Settle 0 o) in
  pending s = [task] -> awaiting task = GenerateImage p image ->
  pending s' = [] /\ isLoading (app (world s')) = false /\
  match o with
  | Resolved base64Image =>
      generatedImage (app (world s')) = Some (dataUrlPrefix ++ base64Image) /\
      error (app (world s')) = None
  | Rejected cause =>
      generatedImage (app (world s')) = None /\
      error (app (world s')) = Some failureMessage /\
      EvConsoleError cause ∈ history s'
  end.
Proof.
  intros s s' Hp Ha.
  destruct (session_invariant inputs) as [[_ Hl _] _]. fold s in Hl.
  unfold s', step, dispatch. rewrite Hp in *.
  cbn [lookup list_lookup delete list_delete].
  destruct Hl as (Ht & _ & He & Hg).
  destruct Ht as [p' image' k Hk|f p' mime k _]; [|done].
  cbn [resume awaiting]. rewrite Hk.
  destruct o as [b|cause]; cbn; split_and!; try done.
  rewrite !elem_of_app. right. in_list.
Qed.

(** When the reading of the upload fails, the submission ends with the
    failure message and the generation service is never called. *)
Lemma session_reading_fails inputs task f cause :
  let s := steps initialSession inputs in
  let s' := step s (Settle 0 (Rejected cause)) in
  pending s = [task] -> awaiting task = ReadAsDataURL f ->
  pending s' = [] /\ isLoading (app (world s')) = false /\
  generatedImage (app (world s')) = None /\
  error (app (world s')) = Some failureMessage /\
  (EvConsoleError cause ∈ history s') /\
  generation_calls (history s') = generation_calls (history s).
Proof.
  intros s s' Hp Ha.
  destruct (session_invariant inputs) as [[_ Hl _] _]. fold s in Hl.
  unfold s', step. rewrite Hp in *.
  cbn [lookup list_lookup delete list_delete].
  destruct Hl as (Ht & _ & He & Hg).
  destruct Ht as [p' image' k Hk|f' p' mime k [Hk _]]; [done|].
  cbn [resume awaiting]. rewrite (dispatch_finished _ _ _ _ _ _ _ (Hk _ _)).
  cbn. split_and!; try done.
  - rewrite !elem_of_app. right. in_list.
  - unfold generation_calls. rewrite !omap_app. cbn. by rewrite !app_nil_r.
Qed.

(** The prompt sent is the one of the render in which the form was
    submitted: editing it while the upload is being read changes
    nothing. *)
Example prompt_of_the_submission :
  generation_calls
    (history
       (steps initialSession
          [ChangeFiles (Some [photo]); ChangePrompt (js "edit this"); Submit;
           ChangePrompt (js "something else"); Settle 0 (fileReader photo)])) =
  [(js "edit this",
    Some {| data := Some (js "Zm9v"); mimeType := js "image/jpeg" |})].
Proof. reflexivity. Qed.

(** The picker's value after a selection, and its reset by the remove
    button. *)
Example remove_resets_picker :
  fileInput (world (steps initialSession [ChangeFiles (Some [photo])])) =
    Some (js "C:\fakepath\photo.jpg") /\
  fileInput
    (world (steps initialSession [ChangeFiles (Some [photo]); ClickRemove])) =
    Some [].
Proof. split; reflexivity. Qed.

(** * Further properties of the handlers *)

(** ** Edge cases of the upload and remove handlers *)

(** X1. A change event without a file ([files] is [null] or empty, as when the
    picker is cancelled) does nothing: the current upload and its preview
    URL, the result and the error stay, and nothing is revoked or
    created. *)
Theorem upload_without_file env w files :
  files = None \/ files = Some [] ->
  world_after env (fun cl => handleImageUpload cl files) w = w /\
  trace_of env (fun cl => handleImageUpload cl files) w = [].
Proof. by intros [-> | ->]. Qed.

Lemma upload_without_file_witness :
  (world_after silent (fun cl => handleImageUpload cl None) editing_page =
     editing_page /\
   trace_of silent (fun cl => handleImageUpload cl None) editing_page = []) /\
  (world_after silent (fun cl => handleImageUpload cl (Some []))
     editing_page = editing_page /\
   trace_of silent (fun cl => handleImageUpload cl (Some [])) editing_page =
     []).
Proof.
  split.
  - exact (upload_without_file silent editing_page None (or_introl eq_refl)).
  - exact (upload_without_file silent editing_page (Some [])
             (or_intror eq_refl)).
Defined.

(** X2. Without an upload the remove handler revokes nothing and leaves the
    five state variables as they are; and removing twice is removing
    once: the second run revokes nothing and changes nothing. *)
Theorem remove_twice env w :
  (uploadedImage (app w) = None ->
   trace_of env removeUploadedImage w = [] /\
   app (world_after env removeUploadedImage w) = app w /\
   live (world_after env removeUploadedImage w) = live w) /\
  (let w1 := world_after env removeUploadedImage w in
   world_after env removeUploadedImage w1 = w1 /\
   trace_of env removeUploadedImage w1 = []).
Proof.
  split.
  - intros Hu. unfold world_after, trace_of, invoke, removeUploadedImage.
    rewrite Hu. cbn. destruct w as [[p g u l e] [v|] n lv]; cbn in *.
    all: by rewrite Hu.
  - unfold world_after, trace_of, invoke, removeUploadedImage.
    destruct w as [[p g [up|] l e] [v|] n lv]; cbn; done.
Qed.

Lemma remove_twice_witness :
  uploadedImage (app (page balloon)) = None /\
  trace_of silent removeUploadedImage (page balloon) = [] /\
  app (world_after silent removeUploadedImage (page balloon)) =
    app (page balloon) /\
  live (world_after silent removeUploadedImage (page balloon)) =
    live (page balloon).
Proof.
  split; [reflexivity|].
  exact (proj1 (remove_twice silent (page balloon)) eq_refl).
Defined.

(** ** What the submit handler leaves alone *)

(** X3. Whatever the outside answers, a run of the submit handler leaves the
    prompt, the upload, the file input and the store of object URLs as
    they are, revokes and creates no object URL and clicks no anchor. *)
Theorem submit_frame env w :
  let w' := world_after env handleSubmit w in
  let t := trace_of env handleSubmit w in
  prompt (app w') = prompt (app w) /\
  uploadedImage (app w') = uploadedImage (app w) /\
  fileInput w' = fileInput w /\ issued w' = issued w /\ live w' = live w /\
  revoked t = [] /\ created t = [] /\
  forall a, EvClick a ∉ t.
Proof.
  run_submit env w; split_and!; try done.
  all: intros a H; in_trace; done.
Qed.

(** X4. A submission that passes the guard ends in exactly one of two ways,
    with the loading flag cleared in both: a result, no error and nothing
    on the console; or the failure message, no result and one cause on
    the console. *)
Theorem submit_result_or_failure env w :
  proceeds (app w) = true ->
  let st := app (world_after env handleSubmit w) in
  let t := trace_of env handleSubmit w in
  isLoading st = false /\
  ((exists b, generatedImage st = Some (dataUrlPrefix ++ b) /\
              error st = None /\
              forall cause, EvConsoleError cause ∉ t) \/
   (exists cause, generatedImage st = None /\
                  error st = Some failureMessage /\
                  forall c, EvConsoleError c ∈ t <-> c = cause)).
Proof.
  intros Hp. run_submit env w; try congruence; (split; [done|]).
  1, 4: left; eexists; split_and!; try done; intros c H; in_trace; done.
  all: right; eexists; split_and!; try done; intros c; split;
    [intros H; in_trace; try discriminate; by injection H as ->
    |intros ->; in_list].
Qed.

Lemma submit_result_or_failure_witness :
  proceeds (app (page balloon)) = true /\
  isLoading (app (world_after failing handleSubmit (page balloon))) = false /\
  ((exists b,
       generatedImage (app (world_after failing handleSubmit (page balloon))) =
         Some (dataUrlPrefix ++ b) /\
       error (app (world_after failing handleSubmit (page balloon))) = None /\
       forall cause,
         EvConsoleError cause ∉ trace_of failing handleSubmit (page balloon)) \/
   (exists cause,
       generatedImage (app (world_after failing handleSubmit (page balloon))) =
         None /\
       error (app (world_after failing handleSubmit (page balloon))) =
         Some failureMessage /\
       forall c,
         EvConsoleError c ∈ trace_of failing handleSubmit (page balloon) <->
         c = cause)).
Proof.
  split; [reflexivity|].
  exact (submit_result_or_failure failing (page balloon) eq_refl).
Defined.

(** ** What the encoding hands to the service *)

Lemma split_second_piece pre mid rest :
  comma ∉ pre -> comma ∉ mid ->
  rest = [] \/ (exists rest', rest = comma :: rest') ->
  split comma (pre ++ comma :: mid ++ rest) !! 1%nat = Some mid.
Proof.
  intros Hpre Hmid Hrest. rewrite split_at_sep by done. cbn.
  destruct Hrest as [-> | [rest' ->]].
  - by rewrite app_nil_r, split_no_sep.
  - by rewrite split_at_sep.
Qed.

(** X5. The submit handler does not check what the reader loaded.  The data
    it hands to the service is the text between the first and the second
    comma of the loaded string, whatever follows a second comma being
    dropped; when the string holds no comma the service is still called,
    with the data undefined. *)
Theorem submit_data_field env w upl result :
  proceeds (app w) = true ->
  uploadedImage (app w) = Some upl ->
  readAsDataURL env (file upl) = Resolved result ->
  let calls := generation_calls (trace_of env handleSubmit w) in
  (comma ∉ result ->
   calls = [(prompt (app w),
             Some {| data := None; mimeType := type (file upl) |})]) /\
  (forall pre mid rest,
      result = pre ++ comma :: mid ++ rest ->
      comma ∉ pre -> comma ∉ mid ->
      rest = [] \/ (exists rest', rest = comma :: rest') ->
      calls = [(prompt (app w),
                Some {| data := Some mid; mimeType := type (file upl) |})]).
Proof.
  intros Hp Hu Hr.
  assert (generation_calls (trace_of env handleSubmit w) =
          [(prompt (app w),
            Some {| data := split comma result !! 1%nat;
                    mimeType := type (file upl) |})]) as ->.
  { revert Hu Hr. run_submit env w; try congruence.
    all: intros [= <-] [= <-]; done. }
  split.
  - intros H. by rewrite split_no_sep.
  - intros pre mid rest -> Hpre Hmid Hrest.
    by rewrite split_second_piece.
Qed.

Lemma submit_data_field_witness :
  (proceeds (app editing_page) = true /\
   uploadedImage (app editing_page) =
     Some {| file := photo; preview := 0 |} /\
   (comma ∉ js "data:") /\
   generation_calls
     (trace_of {| readAsDataURL := fun _ => Resolved (js "data:");
                  generateImage := fun _ _ => Resolved (js "Zm9v") |}
        handleSubmit editing_page) =
     [(js "edit this",
       Some {| data := None; mimeType := js "image/jpeg" |})]) /\
  (js "data:a;x=1,Zm9v,Zm8=" =
     js "data:a;x=1" ++ comma :: js "Zm9v" ++ js ",Zm8=" /\
   generation_calls
     (trace_of {| readAsDataURL :=
                    fun _ => Resolved (js "data:a;x=1,Zm9v,Zm8=");
                  generateImage := fun _ _ => Resolved (js "Zm9v") |}
        handleSubmit editing_page) =
     [(js "edit this",
       Some {| data := Some (js "Zm9v"); mimeType := js "image/jpeg" |})]).
Proof.
  split.
  - split; [reflexivity|]. split; [reflexivity|].
    assert (H : comma ∉ js "data:")
      by (apply (bool_decide_unpack _); vm_compute; exact I).
    split; [exact H|].
    exact (proj1 (submit_data_field
                    {| readAsDataURL := fun _ => Resolved (js "data:");
                       generateImage := fun _ _ => Resolved (js "Zm9v") |}
                    editing_page _ _ eq_refl eq_refl eq_refl) H).
  - split; [reflexivity|].
    refine (proj2 (submit_data_field
                     {| readAsDataURL :=
                          fun _ => Resolved (js "data:a;x=1,Zm9v,Zm8=");
                        generateImage := fun _ _ => Resolved (js "Zm9v") |}
                     editing_page _ _ eq_refl eq_refl eq_refl)
              (js "data:a;x=1") (js "Zm9v") (js ",Zm8=") eq_refl _ _ _).
    + apply (bool_decide_unpack _). vm_compute. exact I.
    + apply (bool_decide_unpack _). vm_compute. exact I.
    + right. by eexists.
Defined.

(** ** What is rendered *)

(** X6. The Download button is rendered only with a result, and a click on it
    saves exactly the image shown beside it, under the fixed name. *)
Theorem download_saves_displayed_image env w src alt :
  View.ResultImage src alt ∈ View.outputPane (app w) ->
  generatedImage (app w) = Some src /\
  alt = prompt (app w) /\
  isLoading (app w) = false /\
  trace_of env handleDownload w =
    [EvAppendChild (saveLink src); EvClick (saveLink src);
     EvRemoveChild (saveLink src)].
Proof.
  unfold View.outputPane, trace_of, invoke, handleDownload.
  destruct (isLoading (app w)), (error (app w)) as [[|c e]|],
    (generatedImage (app w)) as [[|d g]|]; cbn; intros H; in_trace;
    try discriminate.
  all: by injection H as -> ->.
Qed.

Lemma download_saves_displayed_image_witness :
  View.ResultImage (js "data:image/png;base64,Zm9v") (js "A red balloon")
    ∈ View.outputPane (app (page done_state)) /\
  trace_of silent handleDownload (page done_state) =
    [EvAppendChild (saveLink (js "data:image/png;base64,Zm9v"));
     EvClick (saveLink (js "data:image/png;base64,Zm9v"));
     EvRemoveChild (saveLink (js "data:image/png;base64,Zm9v"))].
Proof.
  assert (H : View.ResultImage (js "data:image/png;base64,Zm9v")
                (js "A red balloon")
                ∈ View.outputPane (app (page done_state)))
    by (vm_compute; in_list).
  split; [exact H|].
  exact (proj2 (proj2 (proj2
           (download_saves_displayed_image silent (page done_state) _ _ H)))).
Defined.

(** * Further properties of sessions *)

(** Induction over the sessions of the freshly mounted page, with the
    loading discipline and the accounting of object URLs at hand. *)
Lemma session_induction (P : Session -> Prop) :
  P initialSession ->
  (forall s i, Disciplined s -> Accounted s -> P s -> P (step s i)) ->
  forall inputs, P (steps initialSession inputs).
Proof.
  intros H0 Hstep inputs.
  pose proof initial_disciplined as HD. pose proof initial_accounted as HA.
  revert H0 HD HA. generalize initialSession.
  induction inputs as [|i inputs IH]; intros s HP HD HA; [done|].
  rewrite steps_cons.
  apply IH; [by apply Hstep|by apply step_disciplined|by apply step_accounted].
Qed.

(** The only error a session ever stores is the failure message. *)
Lemma session_error inputs :
  let st := app (world (steps initialSession inputs)) in
  error st = None \/ error st = Some failureMessage.
Proof.
  apply (session_induction
           (fun s => error (app (world s)) = None \/
                     error (app (world s)) = Some failureMessage));
    [by left|].
  intros [w tasks past] i [_ Hl _] _ He. cbn in Hl, He.
  destruct i as [value|files| | | |i o]; unfold step;
    cbn [world pending history].
  - by rewrite (dispatch_finished _ _ _ _ _ _ _ (start_handlePromptChange _ _)).
  - pose proof (start_handleImageUpload (app w) files (choose_files files w))
      as E.
    destruct (files ≫= head);
      [destruct (release_previous (app w) (choose_files files w))|].
    all: rewrite (dispatch_finished _ _ _ _ _ _ _ E); cbn; auto.
  - pose proof (start_removeUploadedImage (app w) w) as E.
    unfold release_previous in E. destruct (uploadedImage (app w)).
    all: by rewrite (dispatch_finished _ _ _ _ _ _ _ E).
  - destruct (proceeds (app w)) eqn:Hp.
    + destruct (start_handleSubmit_proceeds (app w) w Hp)
        as (r & k & Hs & _ & _).
      rewrite (dispatch_suspended _ _ _ _ _ _ _ _ Hs). by left.
    + by rewrite (dispatch_finished _ _ _ _ _ _ _
                    (start_handleSubmit_blocked _ w Hp)).
  - destruct (start_handleDownload (app w) w) as (t & Ht & _).
    by rewrite (dispatch_finished _ _ _ _ _ _ _ Ht).
  - destruct (tasks !! i) as [task|] eqn:Hi; [|done].
    destruct tasks as [|task' [|]]; [done| |done].
    destruct i as [|i]; [|done]. injection Hi as ->.
    destruct Hl as (Ht & _).
    destruct Ht as [p image k Hk|f p mime k [Hk1 Hk2]]; cbn [resume awaiting].
    + rewrite (dispatch_finished _ _ _ _ _ _ _ (Hk _ _)).
      destruct o; cbn; auto.
    + destruct o as [result|err].
      * destruct (Hk2 result w) as (k' & Hs & _).
        by rewrite (dispatch_suspended _ _ _ _ _ _ _ _ Hs).
      * rewrite (dispatch_finished _ _ _ _ _ _ _ (Hk1 _ _)). cbn. auto.
Qed.

(** ** The output pane *)

(** X7. In every state the output pane renders something; and in every state
    of a session it renders exactly one thing: the spinner while a
    submission is in flight, else the failure message if there is one,
    else the result if there is one, else the placeholder. *)
Theorem output_pane_shows_one :
  (forall st, View.outputPane st <> []) /\
  (forall inputs,
      let st := app (world (steps initialSession inputs)) in
      View.outputPane st =
      [if isLoading st then View.Spinner
       else match error st, generatedImage st with
            | Some message, _ => View.ErrorText message
            | None, Some src => View.ResultImage src (prompt st)
            | None, None => View.Placeholder
            end]).
Proof.
  split.
  - intros st. unfold View.outputPane.
    destruct (isLoading st), (error st) as [[|c e]|],
      (generatedImage st) as [[|d g]|]; done.
  - intros inputs st.
    destruct (session_invariant inputs) as [[_ Hl Hr] _].
    pose proof (session_error inputs) as He. fold st in He.
    assert (Hs : (shown st <= 1)%nat).
    { destruct (pending (steps initialSession inputs)) as [|task [|]];
        [by apply shown_settled|by apply shown_loading, Hl|done]. }
    assert (Hg : forall url, generatedImage st = Some url -> url <> []).
    { intros url [b ->]%Hr. apply dataUrlPrefix_app_nonempty. }
    unfold View.outputPane, shown in *.
    destruct (isLoading st), (error st) as [e|] eqn:Ee,
      (generatedImage st) as [[|d g]|] eqn:Eg; cbn in *; try lia.
    all: try (by destruct (Hg [] eq_refl)).
    all: destruct He as [He | He]; try discriminate;
      try injection He as ->; done.
Qed.

(** ** The input pane and the store of object URLs *)

(** X8. In every state of a session the preview shown is a live object URL
    that has never been revoked, and it is the only live one; when the
    upload label is shown no object URL is live. *)
Theorem preview_is_live inputs :
  let s := steps initialSession inputs in
  match View.inputPane (app (world s)) with
  | View.Preview u => live (world s) = {[u]} /\ (u ∉ revoked (history s))
  | View.UploadLabel => live (world s) = ∅
  end.
Proof.
  intros s. destruct (session_invariant inputs) as [_ [_ _ _ Hc _]].
  fold s in Hc. unfold View.inputPane.
  destruct (uploadedImage (app (world s))); [|done].
  by destruct Hc as (_ & ? & ?).
Qed.

(** ** The submit button *)

Lemma button_disabled st :
  View.disabled (View.submitButton st) = negb (proceeds st).
Proof. unfold proceeds. cbn. by rewrite negb_involutive, orb_comm. Qed.

Lemma generation_calls_app t1 t2 :
  generation_calls (t1 ++ t2) = generation_calls t1 ++ generation_calls t2.
Proof. apply omap_app. Qed.

(** The submit handler up to its first await, with what the suspended
    rest has kept of the state. *)
Lemma start_handleSubmit_upload st w up :
  proceeds st = true -> uploadedImage st = Some up ->
  exists k,
    start (handleSubmit st) w =
      (Suspended (ReadAsDataURL (file up)) k, loading_world w,
       [EvPreventDefault; EvCall (ReadAsDataURL (file up))]) /\
    awaits_reading (prompt st) (type (file up)) k.
Proof.
  intros H Hu. unfold handleSubmit. cbn. rewrite guard_of_proceeds, H, Hu. cbn.
  eexists. split; [reflexivity|]. split.
  - intros err w'. reflexivity.
  - intros result w'. eexists. split; [reflexivity|].
    intros [b|err] w''; reflexivity.
Qed.

Lemma start_handleSubmit_plain st w :
  proceeds st = true -> uploadedImage st = None ->
  exists k,
    start (handleSubmit st) w =
      (Suspended (GenerateImage (prompt st) None) k, loading_world w,
       [EvPreventDefault; EvCall (GenerateImage (prompt st) None)]) /\
    awaits_generation k.
Proof.
  intros H Hu. unfold handleSubmit. cbn. rewrite guard_of_proceeds, H, Hu. cbn.
  eexists. split; [reflexivity|]. intros [b|err] w'; reflexivity.
Qed.

(** X9. The submit button is disabled exactly when the handler's guard would
    stop the submission.  In a session, submitting while it is disabled
    changes nothing and calls nothing; submitting while it is enabled
    starts the only submission in flight: the loading flag is set, error
    and result are cleared at once, and one request goes out. *)
Theorem submit_button_matches_guard inputs :
  let s := steps initialSession inputs in
  let st := app (world s) in
  let s' := step s Submit in
  (View.disabled (View.submitButton st) = true ->
   world s' = world s /\ pending s' = pending s /\
   history s' = history s ++ [EvPreventDefault]) /\
  (View.disabled (View.submitButton st) = false ->
   pending s = [] /\ loading_state (app (world s')) /\
   exists task,
     pending s' = [task] /\
     history s' = history s ++ [EvPreventDefault; EvCall (awaiting task)]).
Proof.
  intros s st s'. rewrite button_disabled. split.
  - intros Hp%negb_true_iff. unfold s', step.
    by rewrite (dispatch_finished _ _ _ _ _ _ _
                  (start_handleSubmit_blocked _ _ Hp)).
  - intros Hp%negb_false_iff.
    destruct (session_invariant inputs) as [[_ Hl _] _]. fold s in Hl.
    assert (Hnil : pending s = []).
    { pose proof (proj1 (proceeds_true _) Hp) as [_ Hf]. unfold st in Hf.
      destruct (pending s) as [|task [|]]; [done| |done].
      destruct Hl as (_ & Hl & _). congruence. }
    split; [done|].
    destruct (start_handleSubmit_proceeds st (world s) Hp)
      as (r & k & Hs & _ & _).
    unfold s', step. rewrite (dispatch_suspended _ _ _ _ _ _ _ _ Hs), Hnil.
    cbn. split; [done|]. by eexists.
Qed.

Lemma submit_button_matches_guard_witness :
  (View.disabled
     (View.submitButton
        (app (world (steps initialSession [ChangePrompt (js "   ")])))) =
     true /\
   world (step (steps initialSession [ChangePrompt (js "   ")]) Submit) =
     world (steps initialSession [ChangePrompt (js "   ")])) /\
  (View.disabled
     (View.submitButton
        (app (world (steps initialSession [ChangePrompt (js "a cat")])))) =
     false /\
   loading_state
     (app (world (step (steps initialSession [ChangePrompt (js "a cat")])
                    Submit)))).
Proof.
  split.
  - split; [reflexivity|].
    exact (proj1 (proj1 (submit_button_matches_guard
                           [ChangePrompt (js "   ")]) eq_refl)).
  - split; [reflexivity|].
    exact (proj1 (proj2 (proj2 (submit_button_matches_guard
                                  [ChangePrompt (js "a cat")]) eq_refl))).
Defined.

(** X10. In every state of a session either nothing is in flight, the loading
    flag is clear and the button reads [Generate Image]; or exactly one
    submission is in flight, the loading flag is set and the button is
    disabled and reads [Generating...]. *)
Theorem loading_while_in_flight inputs :
  let s := steps initialSession inputs in
  let button := View.submitButton (app (world s)) in
  (pending s = [] /\ isLoading (app (world s)) = false /\
   View.label button = js "Generate Image") \/
  (exists task,
      pending s = [task] /\ isLoading (app (world s)) = true /\
      View.disabled button = true /\
      View.label button = js "Generating...").
Proof.
  intros s button. destruct (session_invariant inputs) as [[_ Hl _] _].
  fold s in Hl. unfold button, View.submitButton. cbn.
  destruct (pending s) as [|task [|]]; [| |done].
  - destruct Hl as [-> _]. by left.
  - destruct Hl as (_ & -> & _). right. by exists task.
Qed.

(** ** A submission in flight *)

(** What the handlers that await nothing add to the calls of the
    service: nothing. *)
Lemma dispatch_finished_calls p w tasks past res w' t :
  start p w = (Finished res, w', t) -> generation_calls t = [] ->
  let s' := dispatch p w tasks past in
  pending s' = tasks /\
  generation_calls (history s') = generation_calls past.
Proof.
  intros Hs Ht. rewrite (dispatch_finished _ _ _ _ _ _ _ Hs). cbn.
  by rewrite generation_calls_app, Ht, app_nil_r.
Qed.

Lemma step_settle s i o :
  step s (Settle i o) =
  match pending s !! i with
  | Some task =>
      dispatch (resume task o) (world s) (delete i (pending s))
        (history s ++ [EvSettle (awaiting task) o])
  | None => s
  end.
Proof. reflexivity. Qed.

(** While a submission is in flight, no input of the user touches it or
    calls the service. *)
Lemma step_keeps_flight s i task :
  Disciplined s -> pending s = [task] -> is_settle i = false ->
  pending (step s i) = [task] /\
  generation_calls (history (step s i)) = generation_calls (history s).
Proof.
  intros [_ Hl _] Hp Hi. destruct s as [w tasks past]. cbn in Hl, Hp.
  subst tasks. destruct Hl as (_ & Hl & _).
  destruct i as [value|files| | | |i o]; [..|done]; unfold step;
    cbn [world pending history].
  - by apply (dispatch_finished_calls _ _ _ _ _ _ _
                (start_handlePromptChange _ _)).
  - pose proof (start_handleImageUpload (app w) files (choose_files files w))
      as E.
    unfold release_previous in E.
    destruct (files ≫= head); [destruct (uploadedImage (app w))|].
    all: by apply (dispatch_finished_calls _ _ _ _ _ _ _ E).
  - pose proof (start_removeUploadedImage (app w) w) as E.
    unfold release_previous in E. destruct (uploadedImage (app w)).
    all: by apply (dispatch_finished_calls _ _ _ _ _ _ _ E).
  - apply (dispatch_finished_calls _ _ _ _ (Resolved tt) w [EvPreventDefault]);
      [|done].
    apply start_handleSubmit_blocked, proceeds_false. by right.
  - unfold handleDownload, dispatch.
    destruct (generatedImage (app w)) as [[|c url]|]; cbn.
    all: by rewrite generation_calls_app, app_nil_r.
Qed.

Lemma steps_keep_flight inputs s task :
  Disciplined s -> pending s = [task] ->
  forallb (fun i => negb (is_settle i)) inputs = true ->
  pending (steps s inputs) = [task] /\
  generation_calls (history (steps s inputs)) = generation_calls (history s).
Proof.
  revert s. induction inputs as [|i inputs IH]; intros s HD Hp Hi; [done|].
  cbn in Hi. apply andb_true_iff in Hi as [Hi His].
  apply negb_true_iff in Hi.
  destruct (step_keeps_flight s i task HD Hp Hi) as [Hp' Hc].
  rewrite steps_cons.
  destruct (IH (step s i)) as [? ?]; [by apply step_disciplined|done..|].
  split; [done|congruence].
Qed.

(** X11. The service is called with the prompt and the file of the moment of
    submission: whatever the user does while the upload is being read
    (typing, choosing another file, removing the upload, submitting
    again, downloading), the call that follows the reading carries the
    prompt and the media type the handler closed over. *)
Theorem submission_keeps_prompt_and_file inputs meanwhile up result :
  let s := steps initialSession inputs in
  let s' := step (steps (step s Submit) meanwhile)
              (Settle 0 (Resolved result)) in
  proceeds (app (world s)) = true ->
  uploadedImage (app (world s)) = Some up ->
  forallb (fun i => negb (is_settle i)) meanwhile = true ->
  generation_calls (history s') =
  generation_calls (history s) ++
  [(prompt (app (world s)),
    Some {| data := split comma result !! 1%nat;
            mimeType := type (file up) |})].
Proof.
  intros s s' Hp Hu Hm.
  destruct (session_invariant inputs) as [HD _]. fold s in HD.
  assert (Hnil : pending s = []).
  { pose proof (proj1 (proceeds_true _) Hp) as [_ Hf].
    destruct HD as [_ Hl _].
    destruct (pending s) as [|task [|]]; [done| |done].
    destruct Hl as (_ & Hl & _). congruence. }
  destruct (start_handleSubmit_upload _ (world s) up Hp Hu)
    as (k & Hs & _ & Hk).
  set (task := {| awaiting := ReadAsDataURL (file up); resume := k |}).
  assert (Hs1 : pending (step s Submit) = [task] /\
                generation_calls (history (step s Submit)) =
                generation_calls (history s)).
  { unfold step. rewrite (dispatch_suspended _ _ _ _ _ _ _ _ Hs), Hnil. cbn.
    by rewrite generation_calls_app, app_nil_r. }
  destruct Hs1 as [Hp1 Hc1].
  destruct (steps_keep_flight meanwhile (step s Submit) task) as [Hp2 Hc2];
    [by apply step_disciplined|done..|].
  unfold s'. rewrite step_settle, Hp2. cbn [lookup list_lookup resume task].
  destruct (Hk result (world (steps (step s Submit) meanwhile)))
    as (k' & Hs' & _).
  rewrite (dispatch_suspended _ _ _ _ _ _ _ _ Hs'). cbn [history].
  rewrite !generation_calls_app, Hc2, Hc1. cbn. by rewrite app_nil_r.
Qed.

Lemma submission_keeps_prompt_and_file_witness :
  proceeds
    (app (world (steps initialSession
                   [ChangeFiles (Some [photo]);
                    ChangePrompt (js "edit this")]))) = true /\
  uploadedImage
    (app (world (steps initialSession
                   [ChangeFiles (Some [photo]);
                    ChangePrompt (js "edit this")]))) =
    Some {| file := photo; preview := 0 |} /\
  generation_calls
    (history
       (step (steps (step (steps initialSession
                             [ChangeFiles (Some [photo]);
                              ChangePrompt (js "edit this")]) Submit)
                [ChangePrompt (js "something else");
                 ChangeFiles (Some [sketch]); Submit; ClickRemove])
          (Settle 0 (Resolved (js "data:image/jpeg;base64,Zm9v"))))) =
    [(js "edit this",
      Some {| data := Some (js "Zm9v"); mimeType := js "image/jpeg" |})].
Proof.
  split; [reflexivity|]. split; [reflexivity|].
  exact (submission_keeps_prompt_and_file
           [ChangeFiles (Some [photo]); ChangePrompt (js "edit this")]
           [ChangePrompt (js "something else"); ChangeFiles (Some [sketch]);
            Submit; ClickRemove]
           _ (js "data:image/jpeg;base64,Zm9v") eq_refl eq_refl eq_refl).
Defined.

(** X12. When the request of the submission in flight settles, the
    submission ends, whatever was handled since it started: an answer of
    the service is shown as the result, a rejection of the service or of
    the reading as the failure message with the cause on the console;
    and a failed reading never reaches the service. *)
Theorem submission_in_flight_ends inputs r o :
  let s := steps initialSession inputs in
  let s' := step s (Settle 0 o) in
  awaiting <$> pending s = [r] ->
  match r, o with
  | GenerateImage _ _, Resolved base64Image =>
      pending s' = [] /\ isLoading (app (world s')) = false /\
      generatedImage (app (world s')) = Some (dataUrlPrefix ++ base64Image) /\
      error (app (world s')) = None
  | ReadAsDataURL _, Resolved _ =>
      isLoading (app (world s')) = true /\
      exists p image, awaiting <$> pending s' = [GenerateImage p image]
  | _, Rejected cause =>
      pending s' = [] /\ isLoading (app (world s')) = false /\
      generatedImage (app (world s')) = None /\
      error (app (world s')) = Some failureMessage /\
      (EvConsoleError cause ∈ history s') /\
      generation_calls (history s') = generation_calls (history s)
  end.
Proof.
  intros s s' Hr.
  destruct (pending s) as [|task [|]] eqn:Hp; try done.
  injection Hr as Hr.
  destruct r as [f|p image].
  - destruct o as [result|cause].
    + destruct (session_invariant inputs) as [[_ Hl _] _]. fold s in Hl.
      rewrite Hp in Hl. destruct Hl as (Ht & Hl & _).
      destruct Ht as [? ? k Hk|f' p mime k [_ Hk]]; [done|].
      unfold s'. rewrite step_settle, Hp. cbn [lookup list_lookup resume].
      destruct (Hk result (world s)) as (k' & Hs & _).
      rewrite (dispatch_suspended _ _ _ _ _ _ _ _ Hs). cbn.
      split; [done|]. by eexists _, _.
    + exact (session_reading_fails inputs task f cause Hp Hr).
  - pose proof (session_generation_settles inputs task p image o Hp Hr) as H.
    destruct o as [b|cause]; [by destruct H as (? & ? & ? & ?)|].
    destruct H as (H1 & H2 & H3 & H4 & H5). split_and!; try done.
    unfold s'. rewrite step_settle, Hp. cbn [lookup list_lookup].
    destruct (session_invariant inputs) as [[_ Hl _] _]. fold s in Hl.
    rewrite Hp in Hl. destruct Hl as (Ht & _).
    destruct Ht as [p' image' k Hk|? ? ? ? ?]; [|done].
    cbn [resume awaiting].
    rewrite (dispatch_finished _ _ _ _ _ _ _ (Hk _ _)). cbn.
    by rewrite !generation_calls_app, !app_nil_r.
Qed.

Lemma submission_in_flight_ends_witness :
  awaiting <$>
    pending (steps initialSession
               [ChangePrompt (js "A red balloon"); Submit;
                ChangeFiles (Some [photo]); ChangePrompt (js "a cat")]) =
    [GenerateImage (js "A red balloon") None] /\
  generatedImage
    (app (world (step (steps initialSession
                         [ChangePrompt (js "A red balloon"); Submit;
                          ChangeFiles (Some [photo]);
                          ChangePrompt (js "a cat")])
                   (Settle 0 (Resolved (js "Zm9v")))))) =
    Some (js "data:image/png;base64,Zm9v").
Proof.
  split; [reflexivity|].
  exact (proj1 (proj2 (proj2
           (submission_in_flight_ends
              [ChangePrompt (js "A red balloon"); Submit;
               ChangeFiles (Some [photo]); ChangePrompt (js "a cat")]
              _ (Resolved (js "Zm9v")) eq_refl)))).
Defined.

(** ** Calls of the generation service over a session *)

Lemma initial_nonblank : NonBlank initialSession.
Proof. split; [|constructor]. intros p image H. by apply elem_of_nil in H. Qed.

Lemma nonblank_finished p w tasks past res w' t :
  NonBlank {| world := w; pending := tasks; history := past |} ->
  start p w' = (Finished res, w, t) -> generation_calls t = [] ->
  NonBlank (dispatch p w' tasks past).
Proof.
  intros [Hc Ht] Hs Hn. rewrite (dispatch_finished _ _ _ _ _ _ _ Hs).
  split; cbn; [|done]. by rewrite generation_calls_app, Hn, app_nil_r.
Qed.

Lemma nonblank_world w w' tasks past :
  NonBlank {| world := w; pending := tasks; history := past |} ->
  NonBlank {| world := w'; pending := tasks; history := past |}.
Proof. by intros [? ?]. Qed.

Lemma step_nonblank s i : NonBlank s -> NonBlank (step s i).
Proof.
  intros H. destruct s as [w tasks past].
  destruct i as [value|files| | | |i o]; unfold step;
    cbn [world pending history].
  - by eapply nonblank_finished;
      [eapply nonblank_world|apply start_handlePromptChange|].
  - pose proof (start_handleImageUpload (app w) files (choose_files files w))
      as E.
    unfold release_previous in E.
    destruct (files ≫= head); [destruct (uploadedImage (app w))|].
    all: by eapply nonblank_finished; [eapply nonblank_world|apply E|].
  - pose proof (start_removeUploadedImage (app w) w) as E.
    unfold release_previous in E. destruct (uploadedImage (app w)).
    all: by eapply nonblank_finished; [eapply nonblank_world|apply E|].
  - destruct H as [Hc Ht]. cbn in Hc, Ht.
    destruct (proceeds (app w)) eqn:Hp.
    + pose proof (proj1 (proceeds_true _) Hp) as [Hne _].
      destruct (uploadedImage (app w)) as [up|] eqn:Hu.
      * destruct (start_handleSubmit_upload _ w up Hp Hu) as (k & Hs & Hk).
        rewrite (dispatch_suspended _ _ _ _ _ _ _ _ Hs). split; cbn.
        -- by rewrite generation_calls_app, app_nil_r.
        -- apply Forall_app. split; [done|]. constructor; [|constructor].
           by exists (prompt (app w)), (type (file up)).
      * destruct (start_handleSubmit_plain _ w Hp Hu) as (k & Hs & Hk).
        rewrite (dispatch_suspended _ _ _ _ _ _ _ _ Hs). split; cbn.
        -- intros p image. rewrite generation_calls_app. cbn.
           intros [?|[= -> ->]%list_elem_of_singleton]%elem_of_app;
             [eauto|done].
        -- apply Forall_app. split; [done|]. by constructor.
    + by eapply nonblank_finished;
        [split|apply (start_handleSubmit_blocked _ _ Hp)|].
  - unfold handleDownload, dispatch.
    destruct H as [Hc Ht]. cbn in Hc, Ht.
    destruct (generatedImage (app w)) as [[|c url]|]; cbn; split; cbn;
      try done.
    all: by rewrite generation_calls_app, app_nil_r.
  - destruct H as [Hc Ht]. cbn in Hc, Ht.
    destruct (tasks !! i) as [[r k]|] eqn:Hi; [|by split].
    pose proof (Forall_lookup_1 _ _ _ _ Ht Hi) as Hk.
    pose proof (Forall_delete _ _ i Ht) as Hd.
    unfold task_ok in Hk. cbn [resume awaiting] in *.
    destruct r as [f|p image].
    + destruct Hk as (p & mime & Hne & Hk1 & Hk2).
      destruct o as [result|err].
      * destruct (Hk2 result w) as (k' & Hs & Hk').
        rewrite (dispatch_suspended _ _ _ _ _ _ _ _ Hs). split; cbn.
        -- intros q image. rewrite !generation_calls_app. cbn.
           rewrite app_nil_r.
           intros [?|[= -> ->]%list_elem_of_singleton]%elem_of_app;
             [eauto|done].
        -- apply Forall_app. split; [done|]. by constructor.
      * rewrite (dispatch_finished _ _ _ _ _ _ _ (Hk1 _ _)). split; cbn.
        -- by rewrite !generation_calls_app, !app_nil_r.
        -- done.
    + rewrite (dispatch_finished _ _ _ _ _ _ _ (Hk _ _)). split; cbn.
      * rewrite !generation_calls_app. cbn.
        destruct o; cbn; by rewrite !app_nil_r.
      * done.
Qed.

(** X13. Over a whole session the generation service is never called with a
    blank prompt, however submissions, edits of the prompt and settling
    requests interleave. *)
Theorem service_never_gets_blank_prompt inputs p image :
  (p, image) ∈ generation_calls (history (steps initialSession inputs)) ->
  trim p <> [].
Proof.
  assert (NonBlank (steps initialSession inputs)) as [H _]; [|by apply H].
  pose proof initial_nonblank as H0. revert H0. generalize initialSession.
  induction inputs as [|i inputs IH]; intros s H; [done|].
  rewrite steps_cons. by apply IH, step_nonblank.
Qed.

Lemma service_never_gets_blank_prompt_witness :
  (js " a cat ", None)
    ∈ generation_calls
        (history (steps initialSession
                    [ChangePrompt (js " a cat "); Submit;
                     ChangePrompt (js "   "); Submit])) /\
  trim (js " a cat ") <> [].
Proof.
  assert (H : (js " a cat ", None)
                ∈ generation_calls
                    (history (steps initialSession
                                [ChangePrompt (js " a cat "); Submit;
                                 ChangePrompt (js "   "); Submit])))
    by (vm_compute; in_list).
  split; [exact H|].
  exact (service_never_gets_blank_prompt _ _ _ H).
Defined.

(** The calls made so far plus the submissions that may still call. *)
Lemma step_calls s i :
  Disciplined s ->
  (length (generation_calls (history (step s i))) +
   length (List.filter is_reading (pending (step s i))) <=
   length (generation_calls (history s)) +
   length (List.filter is_reading (pending s)) +
   (if is_submit i then 1 else 0))%nat.
Proof.
  intros HD.
  destruct (decide (is_settle i = false)) as [Hi|Hi].
  - destruct HD as [Hm Hl Hr]. destruct s as [w tasks past].
    cbn [world pending history] in *.
    destruct i as [value|files| | | |i o]; [..|done]; unfold step;
      cbn [world pending history is_submit].
    + destruct (dispatch_finished_calls _ w tasks past _ _ _
                  (start_handlePromptChange value w) eq_refl) as [-> ->].
      lia.
    + pose proof (start_handleImageUpload (app w) files
                    (choose_files files w)) as E.
      unfold release_previous in E.
      destruct (files ≫= head); [destruct (uploadedImage (app w))|].
      all: destruct (dispatch_finished_calls _ _ tasks past _ _ _ E eq_refl)
        as [-> ->]; lia.
    + pose proof (start_removeUploadedImage (app w) w) as E.
      unfold release_previous in E. destruct (uploadedImage (app w)).
      all: destruct (dispatch_finished_calls _ _ tasks past _ _ _ E eq_refl)
        as [-> ->]; lia.
    + destruct (proceeds (app w)) eqn:Hp.
      * destruct (uploadedImage (app w)) as [up|] eqn:Hu.
        -- destruct (start_handleSubmit_upload _ w up Hp Hu) as (k & Hs & _).
           rewrite (dispatch_suspended _ _ _ _ _ _ _ _ Hs). cbn.
           rewrite generation_calls_app, List.filter_app, !length_app. cbn.
           lia.
        -- destruct (start_handleSubmit_plain _ w Hp Hu) as (k & Hs & _).
           rewrite (dispatch_suspended _ _ _ _ _ _ _ _ Hs). cbn.
           rewrite generation_calls_app, List.filter_app, !length_app. cbn.
           lia.
      * destruct (dispatch_finished_calls _ w tasks past _ _ _
                    (start_handleSubmit_blocked _ w Hp) eq_refl) as [-> ->].
        lia.
    + unfold handleDownload, dispatch.
      destruct (generatedImage (app w)) as [[|c url]|]; cbn.
      all: rewrite ?generation_calls_app, ?app_nil_r; cbn; lia.
  - destruct i as [| | | | |i o]; try done. rewrite step_settle.
    destruct HD as [_ Hl _]. cbn [is_submit].
    destruct (pending s) as [|task [|]] eqn:Hp; [| |done].
    { rewrite lookup_nil, Hp. cbn. lia. }
    destruct i as [|i].
    2: { rewrite (lookup_ge_None_2 [task] (S i)) by (cbn; lia).
         rewrite Hp. cbn. lia. }
    cbn [lookup list_lookup].
    destruct Hl as (Ht & _).
    destruct Ht as [p image k Hk|f p mime k [Hk1 Hk2]]; cbn [resume awaiting].
    + rewrite (dispatch_finished _ _ _ _ _ _ _ (Hk _ _)). cbn.
      rewrite !generation_calls_app. destruct o; cbn;
        rewrite ?app_nil_r, ?length_app; cbn; lia.
    + destruct o as [result|err].
      * destruct (Hk2 result (world s)) as (k' & Hs & _).
        rewrite (dispatch_suspended _ _ _ _ _ _ _ _ Hs). cbn.
        rewrite !generation_calls_app, !length_app. cbn. lia.
      * rewrite (dispatch_finished _ _ _ _ _ _ _ (Hk1 _ _)). cbn.
        rewrite !generation_calls_app, !length_app. cbn. lia.
Qed.

(** X14. Over a whole session the generation service is called at most once
    per submission: no other input calls it, and no submission calls it
    twice. *)
Theorem one_call_per_submission inputs :
  (length (generation_calls (history (steps initialSession inputs))) <=
   length (List.filter is_submit inputs))%nat.
Proof.
  assert (forall s,
             Disciplined s ->
             (length (generation_calls (history (steps s inputs))) +
              length (List.filter is_reading (pending (steps s inputs))) <=
              length (generation_calls (history s)) +
              length (List.filter is_reading (pending s)) +
              length (List.filter is_submit inputs))%nat) as H.
  { induction inputs as [|i inputs IH]; intros s HD; [cbn; lia|].
    rewrite steps_cons.
    pose proof (IH (step s i) (step_disciplined s i HD)) as H1.
    pose proof (step_calls s i HD) as H2. cbn [List.filter].
    destruct (is_submit i); cbn [length]; lia. }
  specialize (H initialSession initial_disciplined). cbn in H. lia.
Qed.

(** ** Object URLs over a session *)

(** X15. Over a whole session the handlers revoke only object URLs they
    have created, and every object URL created is accounted for: it is
    the preview of the current upload and has not been released, or it
    has been released exactly once. *)
Theorem object_urls_accounted inputs :
  let s := steps initialSession inputs in
  (forall u, u ∈ revoked (history s) -> u ∈ created (history s)) /\
  (forall u,
      u ∈ created (history s) ->
      (preview <$> uploadedImage (app (world s)) = Some u /\
       releases u (history s) = 0%nat) \/
      (preview <$> uploadedImage (app (world s)) <> Some u /\
       releases u (history s) = 1%nat)).
Proof.
  intros s. destruct (session_invariant inputs) as [_ [H1 H2 H3 H4 H5]].
  fold s in H1, H2, H3, H4, H5. split; [exact H2|].
  intros u Hu. destruct (H5 u Hu) as [Hr|(up & Hup & <-)].
  - right. split; [|by apply releases_once].
    destruct (uploadedImage (app (world s))) as [up|]; [|done].
    cbn. intros [= E]. destruct H4 as (_ & Hn & _). by rewrite E in Hn.
  - left. rewrite Hup in H4 |- *. destruct H4 as (_ & Hn & _).
    split; [done|]. unfold releases. by rewrite filter_eq_absent.
Qed.

Lemma object_urls_accounted_witness :
  (0 ∈ created
         (history (steps initialSession
                     [ChangeFiles (Some [photo]);
                      ChangeFiles (Some [sketch])])) /\
   releases 0
     (history (steps initialSession
                 [ChangeFiles (Some [photo]);
                  ChangeFiles (Some [sketch])])) = 1%nat) /\
  (1 ∈ created
         (history (steps initialSession
                     [ChangeFiles (Some [photo]);
                      ChangeFiles (Some [sketch])])) /\
   releases 1
     (history (steps initialSession
                 [ChangeFiles (Some [photo]);
                  ChangeFiles (Some [sketch])])) = 0%nat).
Proof.
  assert (H0 : 0 ∈ created
                 (history (steps initialSession
                             [ChangeFiles (Some [photo]);
                              ChangeFiles (Some [sketch])])))
    by (vm_compute; in_list).
  assert (H1 : 1 ∈ created
                 (history (steps initialSession
                             [ChangeFiles (Some [photo]);
                              ChangeFiles (Some [sketch])])))
    by (vm_compute; in_list).
  split; (split; [assumption|]).
  - destruct (proj2 (object_urls_accounted
                       [ChangeFiles (Some [photo]);
                        ChangeFiles (Some [sketch])]) 0 H0)
      as [[E _] | [_ E]]; [discriminate E|exact E].
  - destruct (proj2 (object_urls_accounted
                       [ChangeFiles (Some [photo]);
                        ChangeFiles (Some [sketch])]) 1 H1)
      as [[_ E] | [E _]]; [exact E|].
    exfalso. apply E. reflexivity.
Defined.

